(** * The [useApi] hook of the blog client: cache, retry and cancellation

    Shallow embedding of [client/src/hooks/useApi.js].  The hook is one
    closure over its options, four React state cells ([data], [loading],
    [error], [status]), the ref holding the current [AbortController] and
    the ref holding the cache [Map].

    [execute] is an [async] function.  Its body runs atomically between
    its three suspension points ([await fetch], [await response.json()],
    [await new Promise(setTimeout)]), so a call is modelled as a small
    coroutine: a record of its locals plus the point where it is parked.
    The scheduler is the environment; it is an explicit stream of events
    (the caller invoking [execute]/[abort]/[clearCache], the clock moving,
    a promise settling, a timer firing) consumed by [step].

    What is not modelled: React re-rendering (state setters are immediate
    writes to the cells, and the options are those of one render), and the
    bodies of the caller's [onSuccess]/[onError] callbacks, which are
    recorded in a log and assumed to return normally.  A render matters to
    the hook in one way only: it gives [execute] a new identity unless the
    caller's [headers], [body] and callbacks are referentially stable, and
    React then runs the mount effect again; [effectRerun] is that step. *)

From stdpp Require Import gmap strings list pretty.
From Stdlib Require Import ZArith Ascii Lia.

Set Warnings "-register-all".

Local Open Scope string_scope.
Local Open Scope Z_scope.

(** ** JavaScript values that reach the hook *)

(** Request bodies and response payloads are JSON values.  An object is
    the list of its own enumerable properties in enumeration order.  That
    is insertion order for names that are not integer indices; names that
    are integer indices ("0", "1", "42") enumerate first, in ascending
    numeric order, whatever the order of insertion.  A number is an
    integer that JavaScript holds exactly (magnitude below 2^53).  Values
    [JSON.stringify] drops or rewrites ([undefined], functions, [NaN]) are
    not values of this type. *)
Inductive json : Type :=
| JNull
| JBool (b : bool)
| JNum (n : Z)
| JStr (s : string)
| JArr (items : list json)
| JObj (props : list (string * json)).

(** A headers object: its own properties in enumeration order (see
    [json]), each with a string value. *)
Definition Headers : Type := list (string * string).

(** JavaScript truthiness, as used by [requestBody && ...]. *)
Definition truthy (v : json) : bool :=
  match v with
  | JNull => false
  | JBool b => b
  | JNum n => negb (n =? 0)
  | JStr s => negb (String.eqb s "")
  | JArr _ | JObj _ => true
  end.

(** Truthiness of what [response.headers.get] returns: [null] and the
    empty string are falsy. *)
Definition truthy_str (o : option string) : bool :=
  match o with
  | Some s => negb (String.eqb s "")
  | None => false
  end.

(** [String.prototype.includes]. *)
Fixpoint includes (needle hay : string) : bool :=
  String.prefix needle hay ||
  match hay with
  | EmptyString => false
  | String _ rest => includes needle rest
  end.

(** *** [JSON.stringify] *)

Definition dquote : ascii := "034"%char.
Definition backslash : ascii := "092"%char.

Definition hex_digit (n : N) : ascii :=
  if (n <? 10)%N then ascii_of_N (48 + n) else ascii_of_N (87 + n).

(** QuoteJSONString, one code unit at a time. *)
Definition escape_char (c : ascii) : string :=
  let n := N_of_ascii c in
  if (n =? 34)%N then String backslash (String dquote "")
  else if (n =? 92)%N then String backslash (String backslash "")
  else if (n =? 8)%N then String backslash "b"
  else if (n =? 12)%N then String backslash "f"
  else if (n =? 10)%N then String backslash "n"
  else if (n =? 13)%N then String backslash "r"
  else if (n =? 9)%N then String backslash "t"
  else if (n <? 32)%N then
    String backslash
      (String "u" (String "0" (String "0"
        (String (hex_digit (n / 16)) (String (hex_digit (n mod 16)) "")))))
  else String c "".

Fixpoint escape (s : string) : string :=
  match s with
  | EmptyString => ""
  | String c rest => escape_char c +:+ escape rest
  end.

Definition quote (s : string) : string :=
  String dquote (escape s +:+ String dquote "").

(** The elements of an array or the members of an object, comma
    separated. *)
Fixpoint commas (parts : list string) : string :=
  match parts with
  | [] => ""
  | [p] => p
  | p :: rest => p +:+ "," +:+ commas rest
  end.

(** Integers are written in full, as JavaScript does below 10^21. *)
Fixpoint stringify (v : json) : string :=
  match v with
  | JNull => "null"
  | JBool b => if b then "true" else "false"
  | JNum n => pretty n
  | JStr s => quote s
  | JArr items => "[" +:+ commas (map stringify items) +:+ "]"
  | JObj props =>
      "{" +:+ commas (map (fun p => quote (fst p) +:+ ":" +:+ stringify (snd p)) props)
          +:+ "}"
  end.

(** The headers object as the JSON value [JSON.stringify] walks: the
    properties in the order of the list, which is enumeration order. *)
Definition headers_json (h : Headers) : json :=
  JObj (map (fun p => (fst p, JStr (snd p))) h).

(** Property assignment [o[k] = v]: an existing key keeps its place. *)
Fixpoint obj_set (k v : string) (o : Headers) : Headers :=
  match o with
  | [] => [(k, v)]
  | (k', v') :: rest =>
      if String.eqb k k' then (k, v) :: rest else (k', v') :: obj_set k v rest
  end.

(** Object spread [{...base, ...extra}]. *)
Definition obj_spread (base extra : Headers) : Headers :=
  fold_left (fun acc p => obj_set (fst p) (snd p) acc) extra base.

(** ** Options, responses, errors *)

(** The first argument of the hook and the destructured [options]. *)
Record Config : Type := {
  endpoint : string;
  method : string;
  body : json;
  headers : Headers;
  immediate : bool;
  cache : bool;
  cacheTime : Z;
  retryCount : Z;
  retryDelay : Z;
  onSuccess : bool;          (* is a callback supplied *)
  onError : bool;
  skipCacheHeaders : bool
}.

(** The defaults of the destructuring pattern. *)
Definition defaultOptions (ep : string) : Config := {|
  endpoint := ep;
  method := "GET";
  body := JNull;
  headers := [];
  immediate := true;
  cache := false;
  cacheTime := 5 * 60 * 1000;
  retryCount := 3;
  retryDelay := 1000;
  onSuccess := false;
  onError := false;
  skipCacheHeaders := false
|}.

(** A [Response] as far as the hook reads it: the status and the three
    headers it asks for. *)
Record Response : Type := {
  resp_status : Z;
  resp_cacheControl : option string;
  resp_etag : option string;
  resp_lastModified : option string
}.

(** [response.ok]. *)
Definition ok (r : Response) : bool :=
  (200 <=? resp_status r) && (resp_status r <=? 299).

Record JsError : Type := {
  err_name : string;
  err_message : string
}.

(** The rejection of a fetch (or of a body read) whose signal fired. *)
Definition abortError : JsError :=
  {| err_name := "AbortError"; err_message := "The operation was aborted." |}.

(** [new Error(`HTTP error! status: ${response.status}`)]. *)
Definition httpError (st : Z) : JsError :=
  {| err_name := "Error"; err_message := "HTTP error! status: " +:+ pretty st |}.

(** Reading [.signal] of a [null] ref. *)
Definition nullSignalError : JsError :=
  {| err_name := "TypeError";
     err_message := "Cannot read properties of null (reading 'signal')" |}.

(** ** CacheKeyBuilder: [getCacheKey] *)

Definition getCacheKey (cfg : Config) : string :=
  method cfg +:+ ":" +:+ endpoint cfg +:+ ":" +:+ stringify (body cfg)
    +:+ ":" +:+ stringify (headers_json (headers cfg)).

(** ** ResponseClassifier: the [cacheStatus] chain of [execute] *)

Inductive CacheStatus : Type :=
| Fresh | NoCache | NoStore | Validated | Cached.

Definition cacheStatusOf (cacheControl etag lastModified : option string)
  : CacheStatus :=
  if truthy_str cacheControl && includes "no-cache" (default "" cacheControl)
  then NoCache
  else if truthy_str cacheControl && includes "no-store" (default "" cacheControl)
  then NoStore
  else if truthy_str etag || truthy_str lastModified
  then Validated
  else Fresh.

Definition classify (r : Response) : CacheStatus :=
  cacheStatusOf (resp_cacheControl r) (resp_etag r) (resp_lastModified r).

(** ** The state of one hook instance *)

(** RequestState: the four [useState] cells. *)
Record RequestState : Type := {
  data : json;
  loading : bool;
  error : option string;
  status : option Z
}.

(** A value of the cache [Map]. *)
Record CacheEntry : Type := {
  ce_data : json;
  ce_timestamp : Z;
  ce_status : CacheStatus
}.

(** What [getCachedData] hands back on a hit. *)
Record CachedResult : Type := {
  cr_data : json;
  cr_status : CacheStatus;
  cr_timestamp : Z;
  cr_age : Z
}.

(** The second argument of [fetch].  The signal is the index of its
    controller in the store of controllers. *)
Record FetchConfig : Type := {
  fc_method : string;
  fc_headers : Headers;
  fc_signal : nat;
  fc_body : option string
}.

Record CacheHeaders : Type := {
  cacheControl : option string;
  etag : option string;
  lastModified : option string
}.

(** The three object literals [execute] returns. *)
Inductive Result : Type :=
| FromCache (d : json) (st : Z) (cs : CacheStatus) (cacheAge : Z)
| FromNetwork (d : json) (st : Z) (cs : CacheStatus) (hs : CacheHeaders)
| Aborted.

(** How the promise returned by [execute] settles.  Falling out of the
    [while] loop resolves it with [undefined]. *)
Inductive Completion : Type :=
| Returned (r : Result)
| ReturnedUndefined
| Threw (e : JsError).

(** Where a call is parked. *)
Inductive Pc : Type :=
| AwaitFetch (sig : nat)
| AwaitJson (sig : nat) (response : Response)
| AwaitTimer (delay : Z)
| Done (c : Completion).

(** The locals of one invocation of [execute]. *)
Record Call : Type := {
  requestBody : json;
  requestHeaders : Headers;
  retries : Z;
  pc : Pc
}.

(** Invocations of the caller's callbacks. *)
Inductive Callback : Type :=
| CbSuccess (d : json) (response : Response)
| CbError (e : JsError) (attempts : Z).

Record State : Type := {
  rs : RequestState;
  abortControllerRef : option nat;     (* abortControllerRef.current *)
  controllers : list bool;             (* signal.aborted of every controller made *)
  cacheRef : gmap string CacheEntry;   (* cacheRef.current *)
  now : Z;                             (* Date.now() *)
  calls : list Call;                   (* every invocation of execute, oldest first *)
  fetchLog : list (nat * FetchConfig); (* calls of fetch, with the invoking call *)
  callbackLog : list Callback
}.

Definition initialState (t0 : Z) : State := {|
  rs := {| data := JNull; loading := false; error := None; status := None |};
  abortControllerRef := None;
  controllers := [];
  cacheRef := ∅;
  now := t0;
  calls := [];
  fetchLog := [];
  callbackLog := []
|}.

(** *** Field updates *)

Definition with_rs (f : RequestState -> RequestState) (s : State) : State :=
  {| rs := f (rs s); abortControllerRef := abortControllerRef s;
     controllers := controllers s; cacheRef := cacheRef s; now := now s;
     calls := calls s; fetchLog := fetchLog s; callbackLog := callbackLog s |}.

Definition setData (v : json) : State -> State :=
  with_rs (fun r => {| data := v; loading := loading r;
                       error := error r; status := status r |}).

Definition setLoading (b : bool) : State -> State :=
  with_rs (fun r => {| data := data r; loading := b;
                       error := error r; status := status r |}).

Definition setError (e : option string) : State -> State :=
  with_rs (fun r => {| data := data r; loading := loading r;
                       error := e; status := status r |}).

Definition setStatus (st : option Z) : State -> State :=
  with_rs (fun r => {| data := data r; loading := loading r;
                       error := error r; status := st |}).

Definition with_cache (f : gmap string CacheEntry -> gmap string CacheEntry)
  (s : State) : State :=
  {| rs := rs s; abortControllerRef := abortControllerRef s;
     controllers := controllers s; cacheRef := f (cacheRef s); now := now s;
     calls := calls s; fetchLog := fetchLog s; callbackLog := callbackLog s |}.

Definition with_calls (f : list Call -> list Call) (s : State) : State :=
  {| rs := rs s; abortControllerRef := abortControllerRef s;
     controllers := controllers s; cacheRef := cacheRef s; now := now s;
     calls := f (calls s); fetchLog := fetchLog s; callbackLog := callbackLog s |}.

Definition set_call (c : nat) (k : Call) : State -> State :=
  with_calls (fun l => <[c := k]> l).

Definition park (k : Call) (p : Pc) (n : Z) : Call :=
  {| requestBody := requestBody k; requestHeaders := requestHeaders k;
     retries := n; pc := p |}.

(** [abortControllerRef.current = new AbortController()]. *)
Definition newAbortController (s : State) : State :=
  {| rs := rs s; abortControllerRef := Some (length (controllers s));
     controllers := (controllers s ++ [false])%list; cacheRef := cacheRef s;
     now := now s; calls := calls s; fetchLog := fetchLog s;
     callbackLog := callbackLog s |}.

Definition log_fetch (c : nat) (fc : FetchConfig) (s : State) : State :=
  {| rs := rs s; abortControllerRef := abortControllerRef s;
     controllers := controllers s; cacheRef := cacheRef s; now := now s;
     calls := calls s; fetchLog := (fetchLog s ++ [(c, fc)])%list;
     callbackLog := callbackLog s |}.

Definition log_callback (cb : Callback) (s : State) : State :=
  {| rs := rs s; abortControllerRef := abortControllerRef s;
     controllers := controllers s; cacheRef := cacheRef s; now := now s;
     calls := calls s; fetchLog := fetchLog s;
     callbackLog := (callbackLog s ++ [cb])%list |}.

Definition tick (d : Z) (s : State) : State :=
  {| rs := rs s; abortControllerRef := abortControllerRef s;
     controllers := controllers s; cacheRef := cacheRef s; now := now s + d;
     calls := calls s; fetchLog := fetchLog s; callbackLog := callbackLog s |}.

(** [signal.aborted] of controller [sig]. *)
Definition signal_aborted (s : State) (sig : nat) : bool :=
  default false (controllers s !! sig).

(** ** CacheStore: [getCachedData], [setCachedData], [clearCache] *)

(** The source reads [Date.now()] twice on a hit, once for the freshness
    test and once for [age].  Here the clock moves between events only,
    so both readings are [now s]; in the browser the second reading may
    be later, and [age] correspondingly larger. *)
Definition getCachedData (cfg : Config) (s : State)
  : option CachedResult * State :=
  if negb (cache cfg) then (None, s)
  else
    let cacheKey := getCacheKey cfg in
    match cacheRef s !! cacheKey with
    | Some cached =>
        if now s - ce_timestamp cached <? cacheTime cfg
        then (Some {| cr_data := ce_data cached; cr_status := Cached;
                      cr_timestamp := ce_timestamp cached;
                      cr_age := now s - ce_timestamp cached |}, s)
        else (None, with_cache (delete cacheKey) s)
    | None => (None, s)
    end.

Definition setCachedData (cfg : Config) (d : json) (st : CacheStatus)
  (s : State) : State :=
  if negb (cache cfg) then s
  else with_cache
         (insert (getCacheKey cfg)
            {| ce_data := d; ce_timestamp := now s; ce_status := st |}) s.

Definition clearCache (s : State) : State := with_cache (fun _ => ∅) s.

(** ** [abort] *)

Definition abort (s : State) : State :=
  match abortControllerRef s with
  | Some i =>
      {| rs := rs s; abortControllerRef := abortControllerRef s;
         controllers := <[i := true]> (controllers s); cacheRef := cacheRef s;
         now := now s; calls := calls s; fetchLog := fetchLog s;
         callbackLog := callbackLog s |}
  | None => s
  end.

(** ** RequestExecutor and ResourceController: [execute] *)

(** The [config] object built at the top of the [try] block. *)
Definition fetchConfig (cfg : Config) (k : Call) (sig : nat) : FetchConfig :=
  let base := obj_spread [("Content-Type", "application/json")] (requestHeaders k) in
  let hs :=
    if String.eqb (method cfg) "GET" && negb (skipCacheHeaders cfg)
    then obj_set "Pragma" "cache" (obj_set "Cache-Control" "max-age=300" base)
    else base in
  {| fc_method := method cfg;
     fc_headers := hs;
     fc_signal := sig;
     fc_body :=
       if truthy (requestBody k) && negb (String.eqb (method cfg) "GET")
       then Some (stringify (requestBody k))
       else None |}.

(** The [catch (err)] block, entered by call [c] with locals [k]. *)
Definition catchBlock (cfg : Config) (c : nat) (k : Call) (err : JsError)
  (s : State) : State :=
  if String.eqb (err_name err) "AbortError"
  then set_call c (park k (Done (Returned Aborted)) (retries k)) s
  else
    let n := retries k + 1 in
    if retryCount cfg <? n
    then
      let s1 := setError (Some (err_message err)) s in
      let s2 := if onError cfg then log_callback (CbError err n) s1 else s1 in
      set_call c (park k (Done (Threw err)) n) s2
    else set_call c (park k (AwaitTimer (retryDelay cfg * n)) n) s.

(** The head of the [while (retries <= retryCount)] loop up to the first
    [await]: the loop test, the [config] object, the call of [fetch]. *)
Definition loopHead (cfg : Config) (c : nat) (k : Call) (s : State) : State :=
  if retries k <=? retryCount cfg
  then
    match abortControllerRef s with
    | Some sig =>
        set_call c (park k (AwaitFetch sig) (retries k))
          (log_fetch c (fetchConfig cfg k sig) s)
    | None => catchBlock cfg c k nullSignalError s
    end
  else set_call c (park k (Done ReturnedUndefined) (retries k)) s.

(** [execute(requestBody = body, requestHeaders = headers)] from its entry
    to its first [await] or its [return].  An omitted argument is [None]. *)
Definition execute (cfg : Config) (rb : option json) (rh : option Headers)
  (s : State) : State :=
  let k0 := {| requestBody := default (body cfg) rb;
               requestHeaders := default (headers cfg) rh;
               retries := 0;
               pc := Done ReturnedUndefined |} in
  let c := length (calls s) in
  match getCachedData cfg s with
  | (Some cachedResult, s1) =>
      let s2 := setStatus (Some 200) (setData (cr_data cachedResult) s1) in
      with_calls
        (fun l => l ++ [park k0 (Done (Returned
                    (FromCache (cr_data cachedResult) 200
                       (cr_status cachedResult) (cr_age cachedResult)))) 0])%list
        s2
  | (None, s1) =>
      let s2 := setError None (setLoading true s1) in
      let s3 := newAbortController s2 in
      loopHead cfg c k0 (with_calls (fun l => l ++ [k0])%list s3)
  end.

(** How a promise the call awaits settles. *)
Inductive FetchOutcome : Type :=
| Resolved (response : Response)
| Rejected (e : JsError).

Inductive JsonOutcome : Type :=
| Parsed (d : json)
| ParseFailed (e : JsError).

(** The Fetch contract for a signal that has fired: the pending promise
    rejects with an [AbortError] whatever the network did. *)
Definition observeFetch (s : State) (sig : nat) (o : FetchOutcome) : FetchOutcome :=
  if signal_aborted s sig then Rejected abortError else o.

Definition observeJson (s : State) (sig : nat) (o : JsonOutcome) : JsonOutcome :=
  if signal_aborted s sig then ParseFailed abortError else o.

(** Resumption after [await fetch(endpoint, config)]. *)
Definition afterFetch (cfg : Config) (c : nat) (o : FetchOutcome) (s : State)
  : State :=
  match calls s !! c with
  | Some k =>
      match pc k with
      | AwaitFetch sig =>
          match observeFetch s sig o with
          | Rejected e => catchBlock cfg c k e s
          | Resolved response =>
              let s1 := setStatus (Some (resp_status response)) s in
              if negb (ok response)
              then catchBlock cfg c k (httpError (resp_status response)) s1
              else set_call c (park k (AwaitJson sig response) (retries k)) s1
          end
      | _ => s
      end
  | None => s
  end.

(** Resumption after [await response.json()]. *)
Definition afterJson (cfg : Config) (c : nat) (o : JsonOutcome) (s : State)
  : State :=
  match calls s !! c with
  | Some k =>
      match pc k with
      | AwaitJson sig response =>
          match observeJson s sig o with
          | ParseFailed e => catchBlock cfg c k e s
          | Parsed responseData =>
              let s1 := setData responseData s in
              let cacheStatus := classify response in
              let s2 := setCachedData cfg responseData cacheStatus s1 in
              let s3 := if onSuccess cfg
                        then log_callback (CbSuccess responseData response) s2
                        else s2 in
              set_call c
                (park k (Done (Returned
                   (FromNetwork responseData (resp_status response) cacheStatus
                      {| cacheControl := resp_cacheControl response;
                         etag := resp_etag response;
                         lastModified := resp_lastModified response |})))
                   (retries k))
                s3
          end
      | _ => s
      end
  | None => s
  end.

(** Resumption after the back-off [setTimeout]: back to the loop test. *)
Definition afterTimer (cfg : Config) (c : nat) (s : State) : State :=
  match calls s !! c with
  | Some k =>
      match pc k with
      | AwaitTimer _ => loopHead cfg c k s
      | _ => s
      end
  | None => s
  end.

(** ** The scheduler *)

Inductive Event : Type :=
| EvExecute (rb : option json) (rh : option Headers)
| EvAbort
| EvClearCache
| EvTick (d : Z)
| EvFetch (c : nat) (o : FetchOutcome)
| EvJson (c : nat) (o : JsonOutcome)
| EvTimer (c : nat).

Definition step (cfg : Config) (s : State) (ev : Event) : State :=
  match ev with
  | EvExecute rb rh => execute cfg rb rh s
  | EvAbort => abort s
  | EvClearCache => clearCache s
  | EvTick d => tick d s
  | EvFetch c o => afterFetch cfg c o s
  | EvJson c o => afterJson cfg c o s
  | EvTimer c => afterTimer cfg c s
  end.

Definition run (cfg : Config) (s : State) (evs : list Event) : State :=
  fold_left (step cfg) evs s.

(** The first run of the effect
    [useEffect(() => { if (immediate) execute(); return cleanup },
               [immediate, execute])]
    on a fresh hook.  It is the only run when [execute] keeps its
    identity across renders.  With the default [headers = {}], or with a
    callback written inline, every render makes a new [execute], and the
    render that follows [setLoading(true)] already runs the effect a
    second time: see [effectRerun] and [mounted]. *)
Definition mount (cfg : Config) (t0 : Z) : State :=
  if immediate cfg then execute cfg None None (initialState t0)
  else initialState t0.

(** The cleanup of the effects: the current controller is aborted. *)
Definition unmount (s : State) : State := abort s.

(** The body and the cleanup of that effect. *)
Definition effectBody (cfg : Config) (s : State) : State :=
  if immediate cfg then execute cfg None None s else s.

Definition effectCleanup (s : State) : State := abort s.

(** React running the effect again because [execute] has a new
    identity: the cleanup of the previous run, then the body. *)
Definition effectRerun (cfg : Config) (s : State) : State :=
  effectBody cfg (effectCleanup s).

(** The hook once the effect has run [S n] times, before any response
    has arrived: [n = 0] with stable options, [n = 1] after the first
    re-render with the default or inline options, more under further
    renders. *)
Definition mounted (cfg : Config) (t0 : Z) (n : nat) : State :=
  Nat.iter n (effectRerun cfg) (mount cfg t0).

(** [refetch: () => execute()]. *)
Definition refetch (cfg : Config) (s : State) : State := execute cfg None None s.

(** *** Reading off a call *)

Definition completion (s : State) (c : nat) : option Completion :=
  match calls s !! c with
  | Some k => match pc k with Done r => Some r | _ => None end
  | None => None
  end.

Definition in_flight (s : State) (c : nat) : bool :=
  match calls s !! c with
  | Some k => match pc k with Done _ => false | _ => true end
  | None => false
  end.

(** The property names of each returned object literal. *)
Definition fields (r : Result) : list string :=
  match r with
  | FromCache _ _ _ _ => ["data"; "status"; "fromCache"; "cacheStatus"; "cacheAge"]
  | FromNetwork _ _ _ _ => ["data"; "status"; "fromCache"; "cacheStatus"; "cacheHeaders"]
  | Aborted => ["data"; "status"; "aborted"]
  end.

Definition result_data (r : Result) : json :=
  match r with
  | FromCache d _ _ _ | FromNetwork d _ _ _ => d
  | Aborted => JNull
  end.

Definition result_status (r : Result) : option Z :=
  match r with
  | FromCache _ st _ _ | FromNetwork _ st _ _ => Some st
  | Aborted => None
  end.

(** [result.fromCache], [None] where the property is missing. *)
Definition result_fromCache (r : Result) : option bool :=
  match r with
  | FromCache _ _ _ _ => Some true
  | FromNetwork _ _ _ _ => Some false
  | Aborted => None
  end.

Definition result_cacheStatus (r : Result) : option CacheStatus :=
  match r with
  | FromCache _ _ cs _ | FromNetwork _ _ cs _ => Some cs
  | Aborted => None
  end.

Definition result_aborted (r : Result) : option bool :=
  match r with
  | Aborted => Some true
  | _ => None
  end.

(** ** Vocabulary of the statements *)

(** The call record [execute] starts from. *)
Definition call0 (cfg : Config) (rb : option json) (rh : option Headers) (p : Pc)
  : Call :=
  {| requestBody := default (body cfg) rb;
     requestHeaders := default (headers cfg) rh;
     retries := 0; pc := p |}.

Definition networkResult (response : Response) (d : json) : Result :=
  FromNetwork d (resp_status response) (classify response)
    {| cacheControl := resp_cacheControl response;
       etag := resp_etag response;
       lastModified := resp_lastModified response |}.

(** The two ways an attempt fails without being cancelled. *)
Inductive Failure : Type :=
| TransportFailure (e : JsError)     (* fetch rejects *)
| BadStatus (response : Response).   (* fetch resolves, response.ok is false *)

Definition transient (f : Failure) : Prop :=
  match f with
  | TransportFailure e => err_name e <> "AbortError"
  | BadStatus response => ok response = false
  end.

Definition failure_outcome (f : Failure) : FetchOutcome :=
  match f with
  | TransportFailure e => Rejected e
  | BadStatus response => Resolved response
  end.

(** The error the [catch] block sees. *)
Definition failure_error (f : Failure) : JsError :=
  match f with
  | TransportFailure e => e
  | BadStatus response => httpError (resp_status response)
  end.

(** The events of a call whose attempts fail with [fs] and then with
    [flast]: after each failure but the last the back-off timer fires. *)
Definition failing_attempts (c : nat) (fs : list Failure) (flast : Failure)
  : list Event :=
  (flat_map (fun f => [EvFetch c (failure_outcome f); EvTimer c]) fs
     ++ [EvFetch c (failure_outcome flast)])%list.

(** What the scheduler delivers to a parked call until it completes once
    its signal has fired: the pending promise settles, or the back-off
    timer fires and the [fetch] issued next settles. *)
Definition settles (c : nat) (p : Pc) (fo : FetchOutcome) (jo : JsonOutcome)
  : list Event :=
  match p with
  | AwaitFetch _ => [EvFetch c fo]
  | AwaitJson _ _ => [EvJson c jo]
  | AwaitTimer _ => [EvTimer c; EvFetch c fo]
  | Done _ => []
  end.

(** The call is in flight and the token it waits on (or will pick up
    after its back-off) is the current one. *)
Definition awaits_current (cfg : Config) (k : Call) (cur : nat) : Prop :=
  match pc k with
  | AwaitFetch sig | AwaitJson sig _ => sig = cur
  | AwaitTimer _ => retries k <= retryCount cfg
  | Done _ => False
  end.

(** The five properties of the result record, under the names the hook
    gives them. *)
Definition resultRecordFields : list string :=
  ["data"; "status"; "fromCache"; "cacheStatus"; "aborted"].

Definition returns_full_record (c : Completion) : Prop :=
  exists r, c = Returned r /\ forall f, f ∈ resultRecordFields -> f ∈ fields r.

(** *** Reading a quoted string back *)

Definition unhex (c : ascii) : N :=
  let n := N_of_ascii c in
  if (n <? 58)%N then (n - 48)%N else (n - 87)%N.

Definition cons_read (c : ascii) (r : option (string * string))
  : option (string * string) :=
  match r with
  | Some (t, rest) => Some (String c t, rest)
  | None => None
  end.

(** Reads an escaped string up to its closing quote; returns the string
    and what follows the quote. *)
Fixpoint read_string (s : string) : option (string * string) :=
  match s with
  | EmptyString => None
  | String c rest =>
      if Ascii.eqb c dquote then Some ("", rest)
      else if Ascii.eqb c backslash then
        match rest with
        | String e rest1 =>
            if Ascii.eqb e dquote then cons_read dquote (read_string rest1)
            else if Ascii.eqb e backslash then cons_read backslash (read_string rest1)
            else if Ascii.eqb e "b" then cons_read "008" (read_string rest1)
            else if Ascii.eqb e "f" then cons_read "012" (read_string rest1)
            else if Ascii.eqb e "n" then cons_read "010" (read_string rest1)
            else if Ascii.eqb e "r" then cons_read "013" (read_string rest1)
            else if Ascii.eqb e "t" then cons_read "009" (read_string rest1)
            else if Ascii.eqb e "u" then
              match rest1 with
              | String _ (String _ (String h (String l rest2))) =>
                  cons_read (ascii_of_N (16 * unhex h + unhex l)) (read_string rest2)
              | _ => None
              end
            else None
        | EmptyString => None
        end
      else cons_read c (read_string rest)
  end.

(** One member of a serialized headers object. *)
Definition member (p : string * string) : string :=
  quote (fst p) +:+ ":" +:+ quote (snd p).

(** One member of a serialized object. *)
Definition member_json (p : string * json) : string :=
  quote (fst p) +:+ ":" +:+ stringify (snd p).

(** *** Scanning a JSON text *)

(** Where a left-to-right reader of a JSON text stands: outside any
    string, inside a string, or just after a backslash inside a string. *)
Inductive Mode : Type := Outside | InString | Escaped.

(** What the reader has seen so far: its mode, the number of brackets
    and braces still open, the number of colons met outside strings and
    outside brackets, and whether a backslash was met outside a string. *)
Record Scan : Type := {
  sc_mode : Mode;
  sc_depth : Z;
  sc_seps : nat;
  sc_bad : bool
}.

Definition scan_char (st : Scan) (c : ascii) : Scan :=
  match sc_mode st with
  | Escaped =>
      {| sc_mode := InString; sc_depth := sc_depth st; sc_seps := sc_seps st;
         sc_bad := sc_bad st |}
  | InString =>
      if Ascii.eqb c dquote then
        {| sc_mode := Outside; sc_depth := sc_depth st; sc_seps := sc_seps st;
           sc_bad := sc_bad st |}
      else if Ascii.eqb c backslash then
        {| sc_mode := Escaped; sc_depth := sc_depth st; sc_seps := sc_seps st;
           sc_bad := sc_bad st |}
      else st
  | Outside =>
      if Ascii.eqb c dquote then
        {| sc_mode := InString; sc_depth := sc_depth st; sc_seps := sc_seps st;
           sc_bad := sc_bad st |}
      else if Ascii.eqb c backslash then
        {| sc_mode := Outside; sc_depth := sc_depth st; sc_seps := sc_seps st;
           sc_bad := true |}
      else if Ascii.eqb c "{" || Ascii.eqb c "[" then
        {| sc_mode := Outside; sc_depth := sc_depth st + 1; sc_seps := sc_seps st;
           sc_bad := sc_bad st |}
      else if Ascii.eqb c "}" || Ascii.eqb c "]" then
        {| sc_mode := Outside; sc_depth := sc_depth st - 1; sc_seps := sc_seps st;
           sc_bad := sc_bad st |}
      else if Ascii.eqb c ":" then
        {| sc_mode := Outside; sc_depth := sc_depth st;
           sc_seps := if sc_depth st =? 0 then S (sc_seps st) else sc_seps st;
           sc_bad := sc_bad st |}
      else st
  end.

Fixpoint scan (st : Scan) (s : string) : Scan :=
  match s with
  | EmptyString => st
  | String c rest => scan (scan_char st c) rest
  end.

(** The reader before the first character, and after a text made of two
    JSON values separated by one colon. *)
Definition scan0 : Scan :=
  {| sc_mode := Outside; sc_depth := 0; sc_seps := 0; sc_bad := false |}.

Definition scan1 : Scan :=
  {| sc_mode := Outside; sc_depth := 0; sc_seps := 1; sc_bad := false |}.

(** The characters of a serialized integer. *)
Definition numchar (c : ascii) : bool :=
  Ascii.eqb c "-" || ((48 <=? N_of_ascii c)%N && (N_of_ascii c <=? 57)%N).

Fixpoint all_num (s : string) : bool :=
  match s with
  | EmptyString => true
  | String c rest => numchar c && all_num rest
  end.

(** The kind of value a JSON text holds, read off its first character,
    and the kind of a value. *)
Inductive Kind : Type := KNull | KBool | KNum | KStr | KArr | KObj.

Definition kind_of_char (c : ascii) : option Kind :=
  if Ascii.eqb c "n" then Some KNull
  else if Ascii.eqb c "t" || Ascii.eqb c "f" then Some KBool
  else if numchar c then Some KNum
  else if Ascii.eqb c dquote then Some KStr
  else if Ascii.eqb c "[" then Some KArr
  else if Ascii.eqb c "{" then Some KObj
  else None.

Definition kind (v : json) : Kind :=
  match v with
  | JNull => KNull
  | JBool _ => KBool
  | JNum _ => KNum
  | JStr _ => KStr
  | JArr _ => KArr
  | JObj _ => KObj
  end.

Definition head_kind (s : string) : option Kind :=
  match s with
  | EmptyString => None
  | String c _ => kind_of_char c
  end.

(** What may follow a value inside a JSON text: nothing, or one of the
    characters that close or continue the enclosing array or object. *)
Definition closes (r : string) : bool :=
  match r with
  | EmptyString => true
  | String c _ => Ascii.eqb c "," || Ascii.eqb c "]" || Ascii.eqb c "}"
  end.

(** ** Scenarios *)

(** A request, a 200 response and a payload used by the examples. *)
Definition postsConfig : Config := {|
  endpoint := "/posts"; method := "GET"; body := JNull; headers := [];
  immediate := false; cache := true; cacheTime := 300000; retryCount := 1;
  retryDelay := 1000; onSuccess := true; onError := true;
  skipCacheHeaders := false |}.

Definition noRetryConfig : Config := {|
  endpoint := "/posts"; method := "GET"; body := JNull; headers := [];
  immediate := false; cache := false; cacheTime := 300000; retryCount := 0;
  retryDelay := 1000; onSuccess := true; onError := true;
  skipCacheHeaders := false |}.

Definition withHeaders (h : Headers) : Config := {|
  endpoint := "/api/posts"; method := "GET"; body := JNull; headers := h;
  immediate := true; cache := true; cacheTime := 300000; retryCount := 3;
  retryDelay := 1000; onSuccess := false; onError := false;
  skipCacheHeaders := false |}.

Definition authThenCustom : Headers :=
  [("Authorization", "Bearer token123"); ("X-Custom-Header", "custom-value")].

Definition customThenAuth : Headers :=
  [("X-Custom-Header", "custom-value"); ("Authorization", "Bearer token123")].

(** Two requests whose keys read the same: a method that is not an HTTP
    token, and the same characters split between method and endpoint the
    other way. *)
Definition colonInMethod : Config := {|
  endpoint := "y"; method := "GET:x"; body := JNull; headers := [];
  immediate := true; cache := true; cacheTime := 300000; retryCount := 3;
  retryDelay := 1000; onSuccess := false; onError := false;
  skipCacheHeaders := false |}.

Definition colonInEndpoint : Config := {|
  endpoint := "x:y"; method := "GET"; body := JNull; headers := [];
  immediate := true; cache := true; cacheTime := 300000; retryCount := 3;
  retryDelay := 1000; onSuccess := false; onError := false;
  skipCacheHeaders := false |}.

Definition plain200 : Response :=
  {| resp_status := 200; resp_cacheControl := None;
     resp_etag := None; resp_lastModified := None |}.

Definition noStore200 : Response :=
  {| resp_status := 200; resp_cacheControl := Some "no-store";
     resp_etag := None; resp_lastModified := None |}.

Definition status500 : Response :=
  {| resp_status := 500; resp_cacheControl := None;
     resp_etag := None; resp_lastModified := None |}.

Definition postsPayload : json := JObj [("posts", JArr [])].

Definition failedToFetch : JsError :=
  {| err_name := "TypeError"; err_message := "Failed to fetch" |}.

(** The first call of [postsConfig] parked on [response.json()]. *)
Definition postsAwaitingJson (response : Response) : State :=
  run postsConfig (initialState 0)
    [EvExecute None None; EvFetch 0%nat (Resolved response)].

(** The cache of [postsConfig] filled at time 0 and read again when the
    entry is exactly [cacheTime] old. *)
Definition postsExpired : State :=
  run postsConfig (postsAwaitingJson plain200)
    [EvJson 0%nat (Parsed postsPayload); EvTick 300000].

(** Two overlapping calls of [postsConfig]: the first fills the cache, the
    second exhausts its retries on status 500. *)
Definition postsErrorAfterStore : State :=
  run postsConfig (initialState 0)
    [EvExecute None None; EvExecute None None;
     EvFetch 0%nat (Resolved plain200); EvJson 0%nat (Parsed postsPayload);
     EvFetch 1%nat (Resolved status500); EvTimer 1%nat;
     EvFetch 1%nat (Resolved status500)].

(** The first two calls of a hook started back to back. *)
Definition twoCallsInFlight : State :=
  run noRetryConfig (initialState 0) [EvExecute None None; EvExecute None None].

(** The hook with its default options, mounted on [/api/posts]; the
    current controller is aborted (by the caller, or by the cleanup of
    the effect) while the first request is on the wire, and the request
    then comes back with status 200. *)
Definition abortedWhileFetching : State :=
  run (defaultOptions "/api/posts") (mount (defaultOptions "/api/posts") 0)
    [EvAbort; EvFetch 0%nat (Resolved plain200)].

(** *** Further vocabulary *)

(** Property read [o[k]] of a headers object. *)
Fixpoint obj_get (k : string) (o : Headers) : option string :=
  match o with
  | [] => None
  | (k', v) :: rest => if String.eqb k k' then Some v else obj_get k rest
  end.

(** The names of the own properties of a headers object. *)
Definition obj_keys (o : Headers) : list string := map fst o.

(** How many times call [c] has called [fetch]. *)
Definition fetchCount (s : State) (c : nat) : nat :=
  length (filter (fun e => fst e = c) (fetchLog s)).


(** The events of a call whose first attempts fail with [fs], each
    followed by the firing of its back-off timer. *)
Definition failed_attempts (c : nat) (fs : list Failure) : list Event :=
  flat_map (fun f => [EvFetch c (failure_outcome f); EvTimer c]) fs.

(** Events that settle a [fetch], fire a timer, signal or move the clock:
    everything but a parsed body, a new call and [clearCache]. *)
Definition leaves_payload (ev : Event) : bool :=
  match ev with
  | EvFetch _ _ | EvTimer _ | EvAbort | EvTick _ => true
  | EvJson _ (ParseFailed _) => true
  | EvJson _ (Parsed _) | EvExecute _ _ | EvClearCache => false
  end.

(** The hook of [pages/Home.js] for the list of posts. *)
Definition homePostsConfig : Config := {|
  endpoint := "/api/posts"; method := "GET"; body := JNull; headers := [];
  immediate := true; cache := true; cacheTime := 5 * 60 * 1000; retryCount := 3;
  retryDelay := 1000; onSuccess := false; onError := true;
  skipCacheHeaders := false |}.

(** The attempts of a call that has called [fetch] [n] times are within
    the budget of [retryCount + 1]. *)
Definition within_budget (cfg : Config) (k : Call) (n : nat) : Prop :=
  match pc k with
  | AwaitFetch _ | AwaitJson _ _ =>
      retries k <= retryCount cfg /\ Z.of_nat n <= retries k + 1
  | AwaitTimer _ =>
      retries k <= retryCount cfg /\ Z.of_nat n <= retries k
  | Done _ => Z.of_nat n <= Z.max 0 (retryCount cfg + 1)
  end.

Definition attempts_bounded (cfg : Config) (s : State) : Prop :=
  forall c,
    match calls s !! c with
    | Some k => within_budget cfg k (fetchCount s c)
    | None => fetchCount s c = 0%nat
    end.


(** The call an event resumes. *)
Definition event_call (ev : Event) : option nat :=
  match ev with
  | EvFetch c _ | EvJson c _ | EvTimer c => Some c
  | _ => None
  end.

(** The calls [n] runs of the effect have started, each parked on the
    [fetch] it made with the controller of its run. *)
Definition effectCalls (cfg : Config) (n : nat) : list Call :=
  map (fun i => call0 cfg None None (AwaitFetch i)) (seq 0 n).

(** * Properties *)

(** ** Equations and frames of the blocks of [execute] *)

Lemma getCachedData_disabled cfg s :
  cache cfg = false -> getCachedData cfg s = (None, s).
Proof. intros H. unfold getCachedData. rewrite H. reflexivity. Qed.

Lemma getCachedData_fresh cfg s entry :
  cache cfg = true ->
  cacheRef s !! getCacheKey cfg = Some entry ->
  now s - ce_timestamp entry < cacheTime cfg ->
  getCachedData cfg s =
    (Some {| cr_data := ce_data entry; cr_status := Cached;
             cr_timestamp := ce_timestamp entry;
             cr_age := now s - ce_timestamp entry |}, s).
Proof.
  intros Hc He Hlt. unfold getCachedData. rewrite Hc, He. cbn [negb].
  destruct (Z.ltb_spec (now s - ce_timestamp entry) (cacheTime cfg)); [done | lia].
Qed.

Lemma getCachedData_expired cfg s entry :
  cache cfg = true ->
  cacheRef s !! getCacheKey cfg = Some entry ->
  cacheTime cfg <= now s - ce_timestamp entry ->
  getCachedData cfg s = (None, with_cache (delete (getCacheKey cfg)) s).
Proof.
  intros Hc He Hge. unfold getCachedData. rewrite Hc, He. cbn [negb].
  destruct (Z.ltb_spec (now s - ce_timestamp entry) (cacheTime cfg)); [lia | done].
Qed.

(** A read touches nothing but the cache. *)
Lemma getCachedData_frame cfg s :
  let s1 := snd (getCachedData cfg s) in
  rs s1 = rs s /\ abortControllerRef s1 = abortControllerRef s
  /\ controllers s1 = controllers s /\ now s1 = now s /\ calls s1 = calls s
  /\ fetchLog s1 = fetchLog s /\ callbackLog s1 = callbackLog s.
Proof.
  unfold getCachedData. destruct (cache cfg); cbn; [|done].
  destruct (cacheRef s !! getCacheKey cfg) as [e|]; cbn; [|done].
  destruct (_ <? _); cbn; done.
Qed.

Lemma insert_last {A} (l : list A) (x y : A) :
  <[length l := x]> (l ++ [y])%list = (l ++ [x])%list.
Proof.
  rewrite insert_app_r_alt by lia. rewrite Nat.sub_diag. reflexivity.
Qed.

Lemma lookup_set_call s c k :
  (c < length (calls s))%nat -> calls (set_call c k s) !! c = Some k.
Proof. intros Hc. cbn. by apply list_lookup_insert_eq. Qed.

Lemma completion_set_call s c k :
  (c < length (calls s))%nat ->
  completion (set_call c k s) c =
    match pc k with Done r => Some r | _ => None end.
Proof.
  intros Hc. unfold completion, set_call. cbn.
  rewrite list_lookup_insert_eq by assumption. reflexivity.
Qed.

Lemma completion_append s k :
  completion (with_calls (fun l => l ++ [k])%list s) (length (calls s)) =
    match pc k with Done r => Some r | _ => None end.
Proof.
  unfold completion. cbn. rewrite list_lookup_middle by reflexivity. reflexivity.
Qed.

(** [execute] on a hit: two writes and an immediate return. *)
Lemma execute_hit cfg rb rh s cr s1 :
  getCachedData cfg s = (Some cr, s1) ->
  execute cfg rb rh s =
    with_calls
      (fun l => l ++ [call0 cfg rb rh (Done (Returned
                  (FromCache (cr_data cr) 200 (cr_status cr) (cr_age cr))))])%list
      (setStatus (Some 200) (setData (cr_data cr) s1)).
Proof. intros H. unfold execute. rewrite H. reflexivity. Qed.

(** [execute] on a miss, up to its first [await]. *)
Lemma execute_miss cfg rb rh s s1 :
  getCachedData cfg s = (None, s1) ->
  0 <= retryCount cfg ->
  let sig := length (controllers s) in
  let c := length (calls s) in
  execute cfg rb rh s =
    {| rs := {| data := data (rs s); loading := true; error := None;
                status := status (rs s) |};
       abortControllerRef := Some sig;
       controllers := (controllers s ++ [false])%list;
       cacheRef := cacheRef s1;
       now := now s;
       calls := (calls s ++ [call0 cfg rb rh (AwaitFetch sig)])%list;
       fetchLog := (fetchLog s ++
                      [(c, fetchConfig cfg (call0 cfg rb rh (Done ReturnedUndefined)) sig)])%list;
       callbackLog := callbackLog s |}.
Proof.
  intros H Hn. cbv zeta.
  pose proof (getCachedData_frame cfg s) as F. rewrite H in F. cbn in F.
  destruct F as (F1 & F2 & F3 & F4 & F5 & F6 & F7).
  unfold execute. rewrite H. unfold loopHead. cbn.
  destruct (Z.leb_spec 0 (retryCount cfg)); [|lia].
  unfold set_call, with_calls, log_fetch. cbn.
  rewrite F1, F3, F4, F5, F6, F7. rewrite insert_last. reflexivity.
Qed.

(** [execute] appends one call and leaves the earlier ones as they are. *)
Lemma calls_execute cfg rb rh s :
  exists k, calls (execute cfg rb rh s) = (calls s ++ [k])%list.
Proof.
  pose proof (getCachedData_frame cfg s) as F. cbv zeta in F.
  destruct F as (_ & _ & _ & _ & F & _).
  unfold execute. destruct (getCachedData cfg s) as [[cr|] s1]; cbn in *.
  - rewrite F. eauto.
  - unfold loopHead. cbn. destruct (_ <=? _); cbn; rewrite F, insert_last; eauto.
Qed.

(** It never signals a controller: at most it makes a new one. *)
Lemma controllers_execute cfg rb rh s :
  controllers (execute cfg rb rh s) = controllers s
  \/ controllers (execute cfg rb rh s) = (controllers s ++ [false])%list.
Proof.
  pose proof (getCachedData_frame cfg s) as F. cbv zeta in F.
  destruct F as (_ & _ & F & _).
  unfold execute. destruct (getCachedData cfg s) as [[cr|] s1]; cbn in *.
  - left. assumption.
  - right. unfold loopHead. cbn. destruct (_ <=? _); cbn; by rewrite F.
Qed.

Lemma signal_aborted_execute cfg rb rh s sig :
  signal_aborted s sig = false ->
  signal_aborted (execute cfg rb rh s) sig = false.
Proof.
  unfold signal_aborted. intros H.
  destruct (controllers_execute cfg rb rh s) as [-> | ->]; [assumption|].
  destruct (decide (sig < length (controllers s))%nat) as [Hlt|Hge].
  - by rewrite lookup_app_l.
  - rewrite lookup_app_r by lia.
    destruct (sig - length (controllers s))%nat as [|[|n]]; reflexivity.
Qed.

Lemma signal_aborted_abort s sig :
  abortControllerRef s = Some sig -> (sig < length (controllers s))%nat ->
  signal_aborted (abort s) sig = true.
Proof.
  intros Href Hlt. unfold signal_aborted, abort. rewrite Href. cbn.
  by rewrite list_lookup_insert_eq.
Qed.

(** The three exits of the [catch] block. *)
Lemma catchBlock_abort cfg c k err s :
  String.eqb (err_name err) "AbortError" = true ->
  catchBlock cfg c k err s =
    set_call c (park k (Done (Returned Aborted)) (retries k)) s.
Proof. intros H. unfold catchBlock. rewrite H. reflexivity. Qed.

Lemma catchBlock_retry cfg c k err s :
  String.eqb (err_name err) "AbortError" = false ->
  retries k + 1 <= retryCount cfg ->
  catchBlock cfg c k err s =
    set_call c
      (park k (AwaitTimer (retryDelay cfg * (retries k + 1))) (retries k + 1)) s.
Proof.
  intros H Hle. unfold catchBlock. rewrite H.
  destruct (Z.ltb_spec (retryCount cfg) (retries k + 1)); [lia | reflexivity].
Qed.

Lemma catchBlock_exhausted cfg c k err s :
  String.eqb (err_name err) "AbortError" = false ->
  retryCount cfg < retries k + 1 ->
  catchBlock cfg c k err s =
    set_call c (park k (Done (Threw err)) (retries k + 1))
      ((if onError cfg then log_callback (CbError err (retries k + 1)) else id)
         (setError (Some (err_message err)) s)).
Proof.
  intros H Hlt. unfold catchBlock. rewrite H.
  destruct (Z.ltb_spec (retryCount cfg) (retries k + 1)); [|lia].
  destruct (onError cfg); reflexivity.
Qed.

Lemma catchBlock_frame cfg c k err s :
  let s' := catchBlock cfg c k err s in
  cacheRef s' = cacheRef s /\ controllers s' = controllers s
  /\ abortControllerRef s' = abortControllerRef s /\ now s' = now s
  /\ fetchLog s' = fetchLog s /\ length (calls s') = length (calls s).
Proof.
  unfold catchBlock. cbv zeta.
  destruct (String.eqb _ _); cbn; [by rewrite length_insert|].
  destruct (_ <? _); cbn; [|by rewrite length_insert].
  destruct (onError cfg); cbn; by rewrite length_insert.
Qed.

Lemma rs_catchBlock cfg c k err s :
  data (rs (catchBlock cfg c k err s)) = data (rs s)
  /\ loading (rs (catchBlock cfg c k err s)) = loading (rs s)
  /\ status (rs (catchBlock cfg c k err s)) = status (rs s).
Proof.
  unfold catchBlock. destruct (String.eqb _ _); [done|].
  destruct (_ <? _); [|done]. destruct (onError cfg); done.
Qed.

Lemma loopHead_fetch cfg c k sig s :
  retries k <= retryCount cfg -> abortControllerRef s = Some sig ->
  loopHead cfg c k s =
    set_call c (park k (AwaitFetch sig) (retries k))
      (log_fetch c (fetchConfig cfg k sig) s).
Proof.
  intros Hle Href. unfold loopHead. rewrite Href.
  destruct (Z.leb_spec (retries k) (retryCount cfg)); [reflexivity | lia].
Qed.

Lemma loopHead_frame cfg c k s :
  let s' := loopHead cfg c k s in
  cacheRef s' = cacheRef s /\ controllers s' = controllers s
  /\ abortControllerRef s' = abortControllerRef s /\ now s' = now s
  /\ length (calls s') = length (calls s).
Proof.
  unfold loopHead. cbv zeta.
  destruct (_ <=? _); cbn; [|by rewrite length_insert].
  destruct (abortControllerRef s) eqn:E; cbn; [by rewrite length_insert|].
  pose proof (catchBlock_frame cfg c k nullSignalError s) as F. cbv zeta in F.
  rewrite E in F. intuition congruence.
Qed.

Lemma afterTimer_loop cfg c k d s :
  calls s !! c = Some k -> pc k = AwaitTimer d ->
  afterTimer cfg c s = loopHead cfg c k s.
Proof. intros Hk Hpc. unfold afterTimer. rewrite Hk, Hpc. reflexivity. Qed.

Lemma afterFetch_ok cfg s c k sig response :
  calls s !! c = Some k -> pc k = AwaitFetch sig ->
  signal_aborted s sig = false -> ok response = true ->
  afterFetch cfg c (Resolved response) s =
    set_call c (park k (AwaitJson sig response) (retries k))
      (setStatus (Some (resp_status response)) s).
Proof.
  intros Hk Hpc Hs Hok. unfold afterFetch, observeFetch.
  rewrite Hk, Hpc, Hs, Hok. reflexivity.
Qed.

Lemma afterFetch_frame cfg c o s :
  let s' := afterFetch cfg c o s in
  cacheRef s' = cacheRef s /\ controllers s' = controllers s
  /\ abortControllerRef s' = abortControllerRef s /\ now s' = now s
  /\ length (calls s') = length (calls s).
Proof.
  unfold afterFetch. cbv zeta.
  destruct (calls s !! c) as [k|]; [|done].
  destruct (pc k); try done.
  destruct (observeFetch s sig o) as [response|e].
  - destruct (negb (ok response)).
    + pose proof (catchBlock_frame cfg c k (httpError (resp_status response))
                    (setStatus (Some (resp_status response)) s)) as F.
      cbv zeta in F. cbn in F. intuition congruence.
    + cbn. by rewrite length_insert.
  - pose proof (catchBlock_frame cfg c k e s) as F. cbv zeta in F.
    intuition congruence.
Qed.

Lemma afterJson_ok cfg s c k sig response d :
  calls s !! c = Some k -> pc k = AwaitJson sig response ->
  signal_aborted s sig = false ->
  afterJson cfg c (Parsed d) s =
    set_call c (park k (Done (Returned (networkResult response d))) (retries k))
      ((if onSuccess cfg then log_callback (CbSuccess d response) else id)
         (setCachedData cfg d (classify response) (setData d s))).
Proof.
  intros Hk Hpc Hs. unfold afterJson, observeJson.
  rewrite Hk, Hpc, Hs. destruct (onSuccess cfg); reflexivity.
Qed.

Lemma cacheRef_setCachedData cfg d st s :
  cacheRef (setCachedData cfg d st s) =
    if cache cfg
    then <[getCacheKey cfg :=
             {| ce_data := d; ce_timestamp := now s; ce_status := st |}]> (cacheRef s)
    else cacheRef s.
Proof. unfold setCachedData. destruct (cache cfg); reflexivity. Qed.

Lemma cacheRef_afterJson_ok cfg s c k sig response d :
  calls s !! c = Some k -> pc k = AwaitJson sig response ->
  signal_aborted s sig = false ->
  cacheRef (afterJson cfg c (Parsed d) s) =
    if cache cfg
    then <[getCacheKey cfg :=
             {| ce_data := d; ce_timestamp := now s;
                ce_status := classify response |}]> (cacheRef s)
    else cacheRef s.
Proof.
  intros Hk Hpc Hs. rewrite (afterJson_ok cfg s c k sig response d) by assumption.
  cbn. destruct (onSuccess cfg); cbn; rewrite cacheRef_setCachedData; reflexivity.
Qed.

(** No block of the hook calls [setLoading(false)]: once a call has gone
    to the network, [loading] stays [true]. *)
Lemma loading_never_reset cfg s ev :
  loading (rs s) = true -> loading (rs (step cfg s ev)) = true.
Proof.
  intros L.
  assert (Hcatch : forall c k err t,
             loading (rs t) = true -> loading (rs (catchBlock cfg c k err t)) = true).
  { intros c k err t Ht.
    by destruct (rs_catchBlock cfg c k err t) as (_ & -> & _). }
  assert (Hloop : forall c k t,
             loading (rs t) = true -> loading (rs (loopHead cfg c k t)) = true).
  { intros c k t Ht. unfold loopHead. destruct (_ <=? _); [|assumption].
    destruct (abortControllerRef t); [assumption | by apply Hcatch]. }
  destruct ev as [rb rh| | |dt|c o|c o|c]; cbn [step].
  - unfold execute.
    pose proof (getCachedData_frame cfg s) as F. cbv zeta in F.
    destruct F as (F & _).
    destruct (getCachedData cfg s) as [[cr|] s1]; cbn in *.
    + by rewrite F.
    + by apply Hloop.
  - unfold abort. by destruct (abortControllerRef s).
  - assumption.
  - assumption.
  - unfold afterFetch. destruct (calls s !! c) as [k|]; [|assumption].
    destruct (pc k); try assumption.
    destruct (observeFetch s sig o) as [response|e]; [|by apply Hcatch].
    destruct (negb (ok response)); [by apply Hcatch | assumption].
  - unfold afterJson. destruct (calls s !! c) as [k|]; [|assumption].
    destruct (pc k); try assumption.
    destruct (observeJson s sig o) as [d|e]; [|by apply Hcatch].
    cbn. destruct (onSuccess cfg); cbn; unfold setCachedData;
      destruct (cache cfg); assumption.
  - unfold afterTimer. destruct (calls s !! c) as [k|]; [|assumption].
    destruct (pc k); try assumption. by apply Hloop.
Qed.

(** ** CacheKeyBuilder *)

Lemma append_nil_l (s : string) : "" +:+ s = s.
Proof. reflexivity. Qed.

Lemma append_cons (c : ascii) (a b : string) :
  String c a +:+ b = String c (a +:+ b).
Proof. reflexivity. Qed.

Lemma append_assoc (a b c : string) : (a +:+ b) +:+ c = a +:+ (b +:+ c).
Proof.
  induction a as [|x a IH]; [reflexivity|].
  rewrite !append_cons. by f_equal.
Qed.

Create Rewrite HintDb string_append.
#[local] Hint Rewrite append_assoc append_cons append_nil_l : string_append.

Lemma read_escape_char (c : ascii) (t : string) :
  read_string (escape_char c +:+ t) = cons_read c (read_string t).
Proof. destruct c as [[] [] [] [] [] [] [] []]; reflexivity. Qed.

Lemma read_escape (s rest : string) :
  read_string (escape s +:+ String dquote rest) = Some (s, rest).
Proof.
  induction s as [|c s IH]; [reflexivity|].
  cbn [escape]. rewrite append_assoc, read_escape_char, IH. reflexivity.
Qed.

Lemma member_shape p x :
  member p +:+ x =
    String dquote (escape (fst p) +:+
      String dquote (String ":" (String dquote (escape (snd p) +:+ String dquote x)))).
Proof.
  unfold member, quote. autorewrite with string_append. reflexivity.
Qed.

Lemma member_inj p1 p2 x y :
  member p1 +:+ x = member p2 +:+ y -> p1 = p2 /\ x = y.
Proof.
  rewrite !member_shape. intros [= H].
  apply (f_equal read_string) in H. rewrite !read_escape in H.
  injection H as Hk H.
  apply (f_equal read_string) in H. rewrite !read_escape in H.
  injection H as Hv H. destruct p1, p2; cbn in *. by subst.
Qed.

Lemma commas_cons (p : string * string) (t : Headers) (x : string) :
  commas (map member (p :: t)) +:+ x =
    member p +:+ match t with
                 | [] => x
                 | _ => String "," (commas (map member t) +:+ x)
                 end.
Proof.
  destruct t as [|q t]; [reflexivity|].
  cbn [map commas]. rewrite append_assoc. reflexivity.
Qed.

Lemma members_inj (h1 : Headers) :
  forall (h2 : Headers) (r1 r2 : string),
    commas (map member h1) +:+ String "}" r1 =
    commas (map member h2) +:+ String "}" r2 ->
    h1 = h2.
Proof.
  induction h1 as [|p1 t1 IH]; intros [|p2 t2] r1 r2.
  - reflexivity.
  - rewrite commas_cons, member_shape. cbn [map commas]. autorewrite with string_append. discriminate.
  - rewrite commas_cons, member_shape. cbn [map commas]. autorewrite with string_append. discriminate.
  - rewrite !commas_cons. intros [-> H]%member_inj.
    destruct t1 as [|q1 t1], t2 as [|q2 t2].
    + reflexivity.
    + discriminate.
    + discriminate.
    + f_equal. apply (IH _ r1 r2). congruence.
Qed.

Lemma stringify_headers (h : Headers) :
  stringify (headers_json h) = String "{" (commas (map member h) +:+ "}").
Proof.
  unfold headers_json. cbn [stringify]. rewrite map_map. reflexivity.
Qed.

Lemma stringify_headers_inj (h1 h2 : Headers) :
  stringify (headers_json h1) = stringify (headers_json h2) -> h1 = h2.
Proof.
  rewrite !stringify_headers. intros [= H]. by apply members_inj in H.
Qed.

(** C9 as stated fails: the same two headers inserted in the two orders
    are one map and two keys.  Neither name is an integer index, so each
    object enumerates in the order it was built. *)
Lemma C9_key_depends_on_insertion_order :
  (list_to_map authThenCustom : gmap string string) = list_to_map customThenAuth
  /\ getCacheKey (withHeaders authThenCustom)
     <> getCacheKey (withHeaders customThenAuth).
Proof.
  split.
  - unfold authThenCustom, customThenAuth. cbn [list_to_map foldr uncurry].
    apply insert_insert_ne. discriminate.
  - vm_compute. discriminate.
Qed.

(** *** Reading the key back *)

Lemma scan_app st a b : scan st (a +:+ b) = scan (scan st a) b.
Proof.
  revert st. induction a as [|c a IH]; intros st; [reflexivity|].
  rewrite append_cons. cbn [scan]. apply IH.
Qed.

Lemma scan_escape_char st c :
  sc_mode st = InString -> scan st (escape_char c) = st.
Proof.
  destruct st as [m d n b]. cbn. intros ->.
  destruct c as [[] [] [] [] [] [] [] []]; reflexivity.
Qed.

Lemma scan_escape st s : sc_mode st = InString -> scan st (escape s) = st.
Proof.
  intros Hm. induction s as [|c s IH]; [reflexivity|].
  cbn [escape]. by rewrite scan_app, scan_escape_char, IH.
Qed.

Lemma scan_quote st s : sc_mode st = Outside -> scan st (quote s) = st.
Proof.
  destruct st as [m d n b]. cbn. intros ->.
  unfold quote. cbn [scan]. unfold scan_char at 1. cbn.
  rewrite scan_app, scan_escape by reflexivity. reflexivity.
Qed.

Lemma scan_digit st x :
  sc_mode st = Outside -> scan_char st (pretty_N_char x) = st.
Proof.
  destruct st as [m d n b]. cbn. intros ->.
  unfold pretty_N_char. repeat case_match; reflexivity.
Qed.

Lemma scan_pretty_N_go st x :
  sc_mode st = Outside -> forall s, scan st (pretty_N_go x s) = scan st s.
Proof.
  intros Hm. induction (N.lt_wf_0 x) as [x _ IH]. intros s.
  assert (x = 0 \/ 0 < x)%N as [->|Hx] by lia.
  - by rewrite pretty_N_go_0.
  - rewrite pretty_N_go_step by done.
    rewrite IH by (by apply N.div_lt). cbn [scan]. by rewrite scan_digit.
Qed.

Lemma scan_pretty_N st (x : N) :
  sc_mode st = Outside -> scan st (pretty x) = st.
Proof.
  intros Hm. unfold pretty, pretty_N. case_decide.
  - destruct st as [m d n b]. cbn in *. by subst.
  - by rewrite scan_pretty_N_go.
Qed.

Lemma scan_pretty_Z st (x : Z) :
  sc_mode st = Outside -> scan st (pretty x) = st.
Proof.
  intros Hm. destruct x as [|p|p]; unfold pretty, pretty_Z.
  - destruct st as [m d n b]. cbn in *. by subst.
  - by apply (scan_pretty_N st (Npos p)).
  - rewrite scan_app.
    assert (H : scan st "-" = st)
      by (destruct st as [m d n b]; cbn in *; by subst).
    rewrite H. by apply (scan_pretty_N st (Npos p)).
Qed.

Lemma scan_commas st parts :
  sc_mode st = Outside ->
  Forall (fun p => scan st p = st) parts ->
  scan st (commas parts) = st.
Proof.
  intros Hm H. induction H as [|p rest Hp Hrest IH]; [reflexivity|].
  destruct rest as [|q rest]; [exact Hp|].
  change (commas (p :: q :: rest)) with (p +:+ "," +:+ commas (q :: rest)).
  rewrite scan_app, Hp, scan_app.
  assert (H : scan st "," = st)
    by (destruct st as [m d n b]; cbn in *; by subst).
  by rewrite H.
Qed.

Lemma json_nested_ind (P : json -> Prop) :
  P JNull -> (forall b, P (JBool b)) -> (forall n, P (JNum n)) ->
  (forall s, P (JStr s)) ->
  (forall items, Forall P items -> P (JArr items)) ->
  (forall props, Forall (fun p => P (snd p)) props -> P (JObj props)) ->
  forall v, P v.
Proof.
  intros Hnull Hbool Hnum Hstr Harr Hobj.
  fix IH 1. intros [|b|n|s|items|props].
  - exact Hnull.
  - apply Hbool.
  - apply Hnum.
  - apply Hstr.
  - apply Harr. induction items as [|x items IHl]; constructor; [apply IH | exact IHl].
  - apply Hobj. induction props as [|[k x] props IHl]; constructor; [apply IH | exact IHl].
Qed.

(** A serialized value is read from start to end without a trace: the
    reader is outside any string again, at the depth it started from, has
    met no colon at depth 0 and no stray backslash. *)
Lemma scan_stringify v :
  forall st, sc_mode st = Outside -> 0 <= sc_depth st ->
             scan st (stringify v) = st.
Proof.
  induction v as [|b|n|s|items IH|props IH] using json_nested_ind;
    intros st Hm Hd.
  - destruct st as [m d n b]. cbn in *. by subst.
  - destruct st as [m d n c]. cbn in *. subst. by destruct b.
  - by apply scan_pretty_Z.
  - by apply scan_quote.
  - cbn [stringify].
    destruct st as [m d n b]. cbn in Hm, Hd. subst m.
    rewrite append_cons, append_nil_l.
    cbn [scan]. unfold scan_char at 1. cbn.
    rewrite scan_app, scan_commas.
    + cbn. f_equal. lia.
    + reflexivity.
    + rewrite Forall_map. eapply Forall_impl; [exact IH|].
      intros x Hx. cbn. apply Hx; cbn; [reflexivity | lia].
  - cbn [stringify].
    destruct st as [m d n b]. cbn in Hm, Hd. subst m.
    rewrite append_cons, append_nil_l.
    cbn [scan]. unfold scan_char at 1. cbn.
    rewrite scan_app, scan_commas.
    + cbn. f_equal. lia.
    + reflexivity.
    + rewrite Forall_map. eapply Forall_impl; [exact IH|].
      intros [k x] Hx. cbn in *.
      rewrite scan_app, scan_quote by reflexivity.
      rewrite append_cons, append_nil_l.
      cbn [scan]. unfold scan_char at 1. cbn.
      assert (Hz : (d + 1 =? 0) = false) by lia. rewrite Hz.
      apply Hx; cbn; [reflexivity | lia].
Qed.

Lemma scan_bad_sticky s :
  forall st, sc_bad st = true -> sc_bad (scan st s) = true.
Proof.
  induction s as [|c s IH]; intros st H; [exact H|].
  cbn [scan]. apply IH. unfold scan_char.
  repeat case_match; cbn; first [exact H | reflexivity].
Qed.

Lemma scan_seps_mono s :
  forall st, (sc_seps st <= sc_seps (scan st s))%nat.
Proof.
  induction s as [|c s IH]; intros st; [reflexivity|].
  cbn [scan]. etransitivity; [|apply IH]. unfold scan_char.
  repeat case_match; cbn; lia.
Qed.

(** The mode and the change of depth do not depend on the depth the
    reader starts from. *)
Lemma scan_mode_depth s :
  forall a b, sc_mode a = sc_mode b ->
    sc_mode (scan a s) = sc_mode (scan b s)
    /\ sc_depth (scan a s) - sc_depth a = sc_depth (scan b s) - sc_depth b.
Proof.
  induction s as [|c s IH]; intros a b Hm; [cbn; split; [exact Hm | lia]|].
  cbn [scan].
  assert (H : sc_mode (scan_char a c) = sc_mode (scan_char b c)
              /\ sc_depth (scan_char a c) - sc_depth a
                 = sc_depth (scan_char b c) - sc_depth b).
  { destruct a as [ma da na ba], b as [mb db nb bb]. cbn in Hm. subst mb.
    unfold scan_char. cbn.
    destruct ma; repeat case_match; cbn; split; first [reflexivity | lia]. }
  destruct H as [H1 H2]. destruct (IH _ _ H1) as [H3 H4]. split; [exact H3 | lia].
Qed.

(** From the same mode and depth, the same colons are counted. *)
Lemma scan_seps_shift s :
  forall a b, sc_mode a = sc_mode b -> sc_depth a = sc_depth b ->
    (sc_seps (scan a s) + sc_seps b = sc_seps (scan b s) + sc_seps a)%nat.
Proof.
  induction s as [|c s IH]; intros a b Hm Hd; [cbn; lia|].
  cbn [scan].
  assert (H : sc_mode (scan_char a c) = sc_mode (scan_char b c)
              /\ sc_depth (scan_char a c) = sc_depth (scan_char b c)
              /\ (sc_seps (scan_char a c) + sc_seps b
                  = sc_seps (scan_char b c) + sc_seps a)%nat).
  { destruct a as [ma da na ba], b as [mb db nb bb]. cbn in Hm, Hd. subst mb db.
    unfold scan_char. cbn.
    destruct ma; repeat case_match; cbn;
      (split; [|split]); first [reflexivity | lia]. }
  destruct H as (H1 & H2 & H3). specialize (IH _ _ H1 H2). lia.
Qed.

(** Two readers of the same text, one starting inside a string and one
    outside, never agree on where the strings are, unless one of them
    meets a backslash outside a string. *)
Lemma scan_opposite s :
  forall a b, sc_mode a = InString -> sc_mode b = Outside ->
    sc_bad (scan a s) = false -> sc_bad (scan b s) = false ->
    sc_mode (scan a s) <> sc_mode (scan b s).
Proof.
  induction s as [|c s IH].
  - intros a b Ha Hb _ _. cbn. congruence.
  - assert (Hstep : forall a b, sc_mode a = InString -> sc_mode b = Outside ->
        sc_bad (scan_char b c) = true
        \/ (sc_mode (scan_char a c) = InString /\ sc_mode (scan_char b c) = Outside)
        \/ (sc_mode (scan_char a c) = Outside /\ sc_mode (scan_char b c) = InString)).
    { intros a b Ha Hb. unfold scan_char. rewrite Ha, Hb.
      destruct (Ascii.eqb c dquote); [right; right; by split|].
      destruct (Ascii.eqb c backslash); [by left|].
      right; left. split; [exact Ha|]. by repeat case_match. }
    intros a b Ha Hb Hbada Hbadb. cbn [scan] in *.
    destruct (Hstep a b Ha Hb) as [Hbad|[[Ha' Hb']|[Ha' Hb']]].
    + rewrite scan_bad_sticky in Hbadb by exact Hbad. discriminate.
    + by apply IH.
    + intros E. symmetry in E. revert E. by apply IH.
Qed.

(** A text made of two JSON values separated by a colon is not what
    follows a colon inside another such text. *)
Lemma tail_not_after_colon (t1 t2 p : string) :
  scan scan0 t1 = scan1 -> scan scan0 t2 = scan1 ->
  t1 = p +:+ String ":" t2 -> False.
Proof.
  intros H1 H2 ->. rewrite scan_app in H1. cbn [scan] in H1.
  set (a := scan_char (scan scan0 p) ":") in *.
  destruct (sc_mode (scan scan0 p)) eqn:Hp.
  - (* the colon is outside any string *)
    assert (Ha : sc_mode a = Outside /\ sc_depth a = sc_depth (scan scan0 p)
                 /\ sc_seps a = if sc_depth (scan scan0 p) =? 0
                                then S (sc_seps (scan scan0 p))
                                else sc_seps (scan scan0 p)).
    { subst a. unfold scan_char. rewrite Hp. cbn. done. }
    destruct Ha as (Hm & Hd & Hn).
    destruct (scan_mode_depth t2 a scan0 Hm) as [_ Hdepth].
    rewrite H1, H2 in Hdepth. cbn in Hdepth.
    assert (Hd0 : sc_depth a = 0) by lia.
    pose proof (scan_seps_shift t2 a scan0 Hm Hd0) as Hseps.
    rewrite H1, H2 in Hseps. cbn in Hseps.
    rewrite <- Hd, Hd0 in Hn. cbn in Hn. lia.
  - (* the colon is inside a string *)
    assert (Ha : sc_mode a = InString)
      by (subst a; unfold scan_char; rewrite Hp; cbn; exact Hp).
    apply (scan_opposite t2 a scan0 Ha eq_refl).
    + by rewrite H1.
    + by rewrite H2.
    + by rewrite H1, H2.
  - (* the colon follows a backslash inside a string *)
    assert (Ha : sc_mode a = InString)
      by (subst a; unfold scan_char; rewrite Hp; reflexivity).
    apply (scan_opposite t2 a scan0 Ha eq_refl).
    + by rewrite H1.
    + by rewrite H2.
    + by rewrite H1, H2.
Qed.

Lemma scan_tail (b : json) (h : Headers) :
  scan scan0 (stringify b +:+ String ":" (stringify (headers_json h))) = scan1.
Proof.
  rewrite scan_app, scan_stringify by (cbn; first [reflexivity | lia]).
  cbn [scan]. change (scan_char scan0 ":") with scan1.
  apply scan_stringify; cbn; [reflexivity | lia].
Qed.

(** Two texts cut at a colon each: the cuts are at the same place, or one
    cut falls inside the second part of the other text. *)
Lemma append_colon_split (a1 : string) :
  forall a2 b1 b2,
    a1 +:+ String ":" b1 = a2 +:+ String ":" b2 ->
    (a1 = a2 /\ b1 = b2)
    \/ (exists q, a2 = a1 +:+ String ":" q /\ b1 = q +:+ String ":" b2)
    \/ (exists q, a1 = a2 +:+ String ":" q /\ b2 = q +:+ String ":" b1).
Proof.
  induction a1 as [|c a1 IH]; intros [|c2 a2] b1 b2 H.
  - left. rewrite !append_nil_l in H. split; congruence.
  - right; left. exists a2. rewrite append_nil_l, append_cons in H.
    injection H as <- ->. by rewrite append_nil_l.
  - right; right. exists a1. rewrite append_nil_l, append_cons in H.
    injection H as -> <-. by rewrite append_nil_l.
  - rewrite !append_cons in H. injection H as -> H.
    destruct (IH _ _ _ H) as [[-> ->]|[(q & -> & ->)|(q & -> & ->)]].
    + by left.
    + right; left. exists q. by rewrite append_cons.
    + right; right. exists q. by rewrite append_cons.
Qed.

Lemma includes_colon (a q : string) : includes ":" (a +:+ String ":" q) = true.
Proof.
  induction a as [|c a IH]; [rewrite append_nil_l; by destruct q|].
  rewrite append_cons. cbn [includes]. rewrite IH. apply orb_true_r.
Qed.

Lemma getCacheKey_shape (cfg : Config) :
  getCacheKey cfg =
    method cfg +:+ String ":" (endpoint cfg +:+ String ":"
      (stringify (body cfg) +:+ String ":" (stringify (headers_json (headers cfg))))).
Proof. reflexivity. Qed.

(** With a colon in the method the parts of the key cannot be told
    apart: two different requests share one key. *)
Lemma key_collision_colon_in_method :
  getCacheKey colonInMethod = getCacheKey colonInEndpoint
  /\ method colonInMethod <> method colonInEndpoint
  /\ endpoint colonInMethod <> endpoint colonInEndpoint.
Proof. split; [by vm_compute | split; discriminate]. Qed.

Lemma numchar_digit x : numchar (pretty_N_char x) = true.
Proof. unfold pretty_N_char. by repeat case_match. Qed.

Lemma all_num_app a b : all_num (a +:+ b) = all_num a && all_num b.
Proof.
  induction a as [|c a IH]; [by rewrite append_nil_l|].
  rewrite append_cons. cbn. rewrite IH. by rewrite andb_assoc.
Qed.

Lemma pretty_N_go_shape x :
  forall s, exists d, pretty_N_go x s = d +:+ s /\ all_num d = true
                      /\ ((0 < x)%N -> d <> "").
Proof.
  induction (N.lt_wf_0 x) as [x _ IH]. intros s.
  assert (x = 0 \/ 0 < x)%N as [->|Hx] by lia.
  - exists "". rewrite pretty_N_go_0. split; [done|]. split; [done|lia].
  - rewrite pretty_N_go_step by done.
    destruct (IH (x `div` 10)%N (N.div_lt x 10 Hx eq_refl)
                (String (pretty_N_char (x `mod` 10)) s)) as (d & -> & Hd & _).
    exists (d +:+ String (pretty_N_char (x `mod` 10)) "").
    rewrite append_assoc, append_cons, append_nil_l. split; [done|].
    rewrite all_num_app, Hd. cbn. rewrite numchar_digit. split; [done|].
    intros _. by destruct d.
Qed.

Lemma pretty_Z_shape (n : Z) :
  exists c t, pretty n = String c t /\ numchar c = true /\ all_num t = true.
Proof.
  assert (HN : forall p, exists c t,
             pretty (Npos p) = String c t /\ numchar c = true /\ all_num t = true).
  { intros p. unfold pretty, pretty_N. rewrite decide_False by done.
    destruct (pretty_N_go_shape (Npos p) "") as (d & -> & Hd & Hne).
    destruct d as [|c t]; [by destruct Hne|].
    exists c, (t +:+ ""). rewrite append_cons. cbn in Hd.
    apply andb_true_iff in Hd as [Hc Ht].
    by rewrite all_num_app, Ht. }
  destruct n as [|p|p].
  - by exists "0"%char, "".
  - apply HN.
  - destruct (HN p) as (c & t & H & Hc & Ht).
    exists "-"%char, (String c t). unfold pretty, pretty_Z.
    change (pretty p) with (pretty (Npos p)). rewrite H.
    split; [done|]. split; [done|]. cbn. by rewrite Hc, Ht.
Qed.

Lemma head_kind_stringify v r : head_kind (stringify v +:+ r) = Some (kind v).
Proof.
  destruct v as [|[]|n|s|items|props]; try reflexivity.
  cbn [stringify kind]. destruct (pretty_Z_shape n) as (c & t & -> & Hc & _).
  rewrite append_cons. cbn. unfold kind_of_char. rewrite Hc.
  unfold numchar in Hc.
  destruct c as [[] [] [] [] [] [] [] []]; try reflexivity; discriminate.
Qed.

Lemma closes_not_value v r : closes (stringify v +:+ r) = false.
Proof.
  pose proof (head_kind_stringify v r) as H.
  destruct (stringify v +:+ r) as [|c t]; [discriminate|].
  cbn in *. unfold kind_of_char in H.
  destruct c as [[] [] [] [] [] [] [] []]; try reflexivity; discriminate.
Qed.

(** Two runs of digits, each followed by something that is not a digit. *)
Lemma digits_then_closer (a : string) :
  forall b r1 r2,
    all_num a = true -> all_num b = true ->
    closes r1 = true -> closes r2 = true ->
    a +:+ r1 = b +:+ r2 -> a = b /\ r1 = r2.
Proof.
  assert (Hno : forall c t, numchar c = true -> closes (String c t) = false).
  { intros c t. unfold numchar. cbn.
    destruct c as [[] [] [] [] [] [] [] []]; try reflexivity; discriminate. }
  induction a as [|c a IH]; intros [|c2 b] r1 r2 Ha Hb H1 H2 H.
  - by rewrite !append_nil_l in H.
  - rewrite append_nil_l, append_cons in H. subst r1.
    cbn in Hb. apply andb_true_iff in Hb as [Hc _].
    rewrite (Hno _ _ Hc) in H1. discriminate.
  - rewrite append_nil_l, append_cons in H. subst r2.
    cbn in Ha. apply andb_true_iff in Ha as [Hc _].
    rewrite (Hno _ _ Hc) in H2. discriminate.
  - rewrite !append_cons in H. injection H as -> H.
    cbn in Ha, Hb. apply andb_true_iff in Ha as [_ Ha].
    apply andb_true_iff in Hb as [_ Hb].
    destruct (IH _ _ _ Ha Hb H1 H2 H) as [-> ->]. done.
Qed.

Lemma commas_stringify_cons (f : json -> string) (x : json) (t : list json) (r : string) :
  commas (map f (x :: t)) +:+ r =
    f x +:+ match t with
            | [] => r
            | _ => String "," (commas (map f t) +:+ r)
            end.
Proof.
  destruct t as [|y t]; [reflexivity|].
  cbn [map commas]. rewrite append_assoc. reflexivity.
Qed.

Lemma commas_member_cons (x : string * json) (t : list (string * json)) (r : string) :
  commas (map member_json (x :: t)) +:+ r =
    member_json x +:+ match t with
            | [] => r
            | _ => String "," (commas (map member_json t) +:+ r)
            end.
Proof.
  destruct t as [|y t]; [reflexivity|].
  cbn [map commas]. rewrite append_assoc. reflexivity.
Qed.

(** A value can be read back from the front of a text: [JSON.stringify]
    is one-to-one on the values of the model. *)
Lemma stringify_inj_then (v1 : json) :
  forall v2 r1 r2,
    closes r1 = true -> closes r2 = true ->
    stringify v1 +:+ r1 = stringify v2 +:+ r2 -> v1 = v2 /\ r1 = r2.
Proof.
  induction v1 as [|b1|n1|s1|items1 IH|props1 IH] using json_nested_ind;
    intros v2 r1 r2 H1 H2 H;
    pose proof (f_equal head_kind H) as Hk;
    rewrite !head_kind_stringify in Hk; injection Hk as Hk;
    destruct v2 as [|b2|n2|s2|items2|props2]; try discriminate Hk; clear Hk.
  - split; [reflexivity|]. by injection H.
  - destruct b1, b2; cbn in H; try discriminate H; split; try reflexivity;
      by injection H.
  - cbn [stringify] in H.
    destruct (pretty_Z_shape n1) as (c1 & t1 & E1 & Hc1 & Ht1).
    destruct (pretty_Z_shape n2) as (c2 & t2 & E2 & Hc2 & Ht2).
    apply digits_then_closer in H as [H ->]; try done.
    + split; [|done]. f_equal. by apply (inj pretty).
    + rewrite E1. cbn. by rewrite Hc1, Ht1.
    + rewrite E2. cbn. by rewrite Hc2, Ht2.
  - cbn [stringify] in H. unfold quote in H.
    rewrite !append_cons, !append_assoc, !append_cons, !append_nil_l in H.
    injection H as H. apply (f_equal read_string) in H.
    rewrite !read_escape in H. by injection H as -> ->.
  - cbn [stringify] in H.
    rewrite !append_cons, !append_nil_l, !append_assoc, !append_cons, !append_nil_l in H.
    injection H as H.
    enough (items1 = items2 /\ r1 = r2) as [-> ->] by done.
    clear H1 H2. revert items2 H.
    induction IH as [|x1 t1 Hx Ht IHt]; intros [|x2 t2] H.
    + cbn in H. rewrite !append_nil_l in H. injection H as ->. done.
    + exfalso. rewrite commas_stringify_cons in H. cbn [map commas] in H.
      rewrite append_nil_l in H.
      pose proof (closes_not_value x2
        match t2 with [] => String "]" r2
                 | _ => String "," (commas (map stringify t2) +:+ String "]" r2) end) as Hc.
      rewrite <- H in Hc. discriminate.
    + exfalso. rewrite commas_stringify_cons in H. cbn [map commas] in H.
      rewrite append_nil_l in H.
      pose proof (closes_not_value x1
        match t1 with [] => String "]" r1
                 | _ => String "," (commas (map stringify t1) +:+ String "]" r1) end) as Hc.
      rewrite H in Hc. discriminate.
    + rewrite !commas_stringify_cons in H.
      apply Hx in H as [-> H]; [|by destruct t1|by destruct t2].
      destruct t1 as [|y1 t1], t2 as [|y2 t2]; try discriminate H.
      * injection H as ->. done.
      * injection H as H. destruct (IHt (y2 :: t2) H) as [E ->]. by rewrite E.
  - cbn [stringify] in H.
    change (map (fun p : string * json => quote (fst p) +:+ ":" +:+ stringify (snd p)))
      with (map member_json) in H.
    rewrite !append_cons, !append_nil_l, !append_assoc, !append_cons, !append_nil_l in H.
    injection H as H.
    enough (props1 = props2 /\ r1 = r2) as [-> ->] by done.
    clear H1 H2. revert props2 H.
    assert (Hmem : forall p1 p2 x y,
               (closes x = true -> closes y = true ->
                forall v2, stringify (snd p1) +:+ x = stringify v2 +:+ y ->
                           snd p1 = v2 /\ x = y) ->
               closes x = true -> closes y = true ->
               member_json p1 +:+ x = member_json p2 +:+ y -> p1 = p2 /\ x = y).
    { intros [k1 w1] [k2 w2] x y Hw Hx Hy. unfold member_json, quote. cbn [fst snd].
      rewrite !append_cons, !append_assoc, !append_cons, !append_nil_l.
      intros [= H]. apply (f_equal read_string) in H. rewrite !read_escape in H.
      injection H as -> H. cbn [snd] in Hw.
      destruct (Hw Hx Hy _ H) as [-> ->]. done. }
    induction IH as [|x1 t1 Hx Ht IHt]; intros [|x2 t2] H.
    + cbn in H. rewrite !append_nil_l in H. injection H as ->. done.
    + exfalso. rewrite commas_member_cons in H. cbn [map commas] in H.
      rewrite append_nil_l in H. unfold member_json, quote in H.
      rewrite !append_cons in H. discriminate.
    + exfalso. rewrite commas_member_cons in H. cbn [map commas] in H.
      rewrite append_nil_l in H. unfold member_json, quote in H.
      rewrite !append_cons in H. discriminate.
    + rewrite !commas_member_cons in H.
      apply Hmem in H as [-> H]; [| |by destruct t1|by destruct t2].
      2: { intros Hc1 Hc2 v2 E. by apply Hx. }
      destruct t1 as [|y1 t1], t2 as [|y2 t2]; try discriminate H.
      * injection H as ->. done.
      * injection H as H. destruct (IHt (y2 :: t2) H) as [E ->]. by rewrite E.
Qed.

Lemma stringify_inj (v1 v2 : json) : stringify v1 = stringify v2 -> v1 = v2.
Proof.
  intros H. apply (stringify_inj_then v1 v2 "" ""); [done|done|].
  by rewrite H.
Qed.

(** C9 (as the code has it).  For methods that contain no colon, as
    every HTTP method does, the key identifies the request: two requests
    have the same key exactly when they have the same method, the same
    endpoint, the same body and the same headers, where a body and a
    headers object are what [JSON.stringify] walks, their properties in
    enumeration order.  So equal requests give equal keys, and any
    difference in the method, the endpoint, the body, a header or the
    order in which the properties enumerate gives a different key. *)
Theorem C9_key_identifies_request (cfg1 cfg2 : Config) :
  includes ":" (method cfg1) = false ->
  includes ":" (method cfg2) = false ->
  getCacheKey cfg1 = getCacheKey cfg2 <->
  method cfg1 = method cfg2
  /\ endpoint cfg1 = endpoint cfg2
  /\ body cfg1 = body cfg2
  /\ headers cfg1 = headers cfg2.
Proof.
  intros Hm1 Hm2. split.
  - rewrite !getCacheKey_shape. intros H.
    apply append_colon_split in H as [[Hm H]|[(q & Hq & _)|(q & Hq & _)]].
    2: { rewrite Hq, includes_colon in Hm2. discriminate. }
    2: { rewrite Hq, includes_colon in Hm1. discriminate. }
    apply append_colon_split in H as [[He H]|[(q & _ & Hq)|(q & _ & Hq)]].
    2: { destruct (tail_not_after_colon _ _ _ (scan_tail _ _) (scan_tail _ _) Hq). }
    2: { destruct (tail_not_after_colon _ _ _ (scan_tail _ _) (scan_tail _ _) Hq). }
    apply append_colon_split in H as [[Hb H]|[(q & Hq & _)|(q & Hq & _)]].
    + apply stringify_headers_inj in H. apply stringify_inj in Hb. done.
    + exfalso. apply (f_equal (scan scan0)) in Hq.
      rewrite scan_app in Hq.
      rewrite !scan_stringify in Hq by (cbn; first [reflexivity | lia]).
      cbn [scan] in Hq. change (scan_char scan0 ":") with scan1 in Hq.
      pose proof (scan_seps_mono q scan1) as Hmono. rewrite <- Hq in Hmono.
      cbn in Hmono. lia.
    + exfalso. apply (f_equal (scan scan0)) in Hq.
      rewrite scan_app in Hq.
      rewrite !scan_stringify in Hq by (cbn; first [reflexivity | lia]).
      cbn [scan] in Hq. change (scan_char scan0 ":") with scan1 in Hq.
      pose proof (scan_seps_mono q scan1) as Hmono. rewrite <- Hq in Hmono.
      cbn in Hmono. lia.
  - intros (Hm & He & Hb & Hh). unfold getCacheKey. by rewrite Hm, He, Hb, Hh.
Qed.

(** The two orders of the same two headers. *)
Lemma C9_key_identifies_request_witness :
  getCacheKey (withHeaders authThenCustom) = getCacheKey (withHeaders customThenAuth)
  <-> method (withHeaders authThenCustom) = method (withHeaders customThenAuth)
      /\ endpoint (withHeaders authThenCustom) = endpoint (withHeaders customThenAuth)
      /\ body (withHeaders authThenCustom) = body (withHeaders customThenAuth)
      /\ headers (withHeaders authThenCustom) = headers (withHeaders customThenAuth).
Proof.
  exact (C9_key_identifies_request (withHeaders authThenCustom)
           (withHeaders customThenAuth) eq_refl eq_refl).
Defined.

(** ** ResponseClassifier *)

Lemma includes_empty_hay needle :
  needle <> "" -> includes needle "" = false.
Proof. destruct needle; [congruence | reflexivity]. Qed.

Lemma includes_truthy needle cc :
  needle <> "" -> includes needle cc = true -> truthy_str (Some cc) = true.
Proof.
  intros Hn Hi. destruct cc as [|a cc]; [|reflexivity].
  rewrite includes_empty_hay in Hi by assumption. discriminate.
Qed.

(** C4 as stated fails: [Cache-Control: no-store, no-cache] contains
    [no-store] and is classified [no-cache]. *)
Lemma C4_no_store_first_refuted :
  let r := {| resp_status := 200;
              resp_cacheControl := Some "no-store, no-cache";
              resp_etag := None;
              resp_lastModified := None |} in
  resp_cacheControl r = Some "no-store, no-cache"
  /\ includes "no-store" "no-store, no-cache" = true
  /\ classify r = NoCache
  /\ classify r <> NoStore.
Proof. cbv zeta. repeat split; try reflexivity. vm_compute. discriminate. Qed.

(** C4 (as the code has it).  The chain tests [no-cache] first: a
    response whose [Cache-Control] contains [no-store] is classified
    [no-store] unless the same value also contains [no-cache], and then it
    is [no-cache]; [ETag] and [Last-Modified] play no part. *)
Theorem C4_no_cache_before_no_store (r : Response) (cc : string) :
  resp_cacheControl r = Some cc ->
  includes "no-store" cc = true ->
  classify r = if includes "no-cache" cc then NoCache else NoStore.
Proof.
  intros Hcc Hstore. unfold classify, cacheStatusOf. rewrite Hcc. cbn [default].
  rewrite (includes_truthy "no-store" cc) by (done || congruence).
  cbn [andb]. unfold id. rewrite Hstore. reflexivity.
Qed.

(** A [no-store] response that also carries an [ETag]. *)
Lemma C4_no_cache_before_no_store_witness :
  classify {| resp_status := 200; resp_cacheControl := Some "private, no-store";
              resp_etag := Some "abc123"; resp_lastModified := None |} = NoStore.
Proof.
  apply (C4_no_cache_before_no_store
           {| resp_status := 200; resp_cacheControl := Some "private, no-store";
              resp_etag := Some "abc123"; resp_lastModified := None |}
           "private, no-store"); reflexivity.
Defined.

(** ** CacheStore *)

(** C5.  With the cache enabled, when a call completes successfully and
    [execute] is invoked again on the same hook [elapsed] milliseconds
    later with [elapsed < cacheTime], the second call returns at once with
    [fromCache: true] and the payload of the first, and [fetch] is not
    called. *)
Theorem C5_second_execute_within_cacheTime_hits
  (cfg : Config) (s : State) (c : nat) (k : Call) (sig : nat)
  (response : Response) (d : json) (elapsed : Z)
  (rb : option json) (rh : option Headers) :
  cache cfg = true ->
  calls s !! c = Some k -> pc k = AwaitJson sig response ->
  signal_aborted s sig = false ->
  elapsed < cacheTime cfg ->
  let s1 := step cfg s (EvJson c (Parsed d)) in
  let s2 := step cfg s1 (EvTick elapsed) in
  let s3 := step cfg s2 (EvExecute rb rh) in
  completion s1 c = Some (Returned (networkResult response d))
  /\ (exists r, completion s3 (length (calls s2)) = Some (Returned r)
                /\ result_fromCache r = Some true
                /\ result_data r = d)
  /\ fetchLog s3 = fetchLog s1.
Proof.
  intros Hcache Hk Hpc Hsig Hlt. cbv zeta. cbn [step].
  assert (Hc : (c < length (calls s))%nat) by (eapply lookup_lt_Some; eauto).
  pose proof (cacheRef_afterJson_ok cfg s c k sig response d Hk Hpc Hsig) as Hcr.
  rewrite Hcache in Hcr.
  assert (Hnow : now (afterJson cfg c (Parsed d) s) = now s).
  { rewrite (afterJson_ok cfg s c k sig response d) by assumption.
    cbn. unfold setCachedData. destruct (onSuccess cfg), (cache cfg); reflexivity. }
  set (s1 := afterJson cfg c (Parsed d) s) in *.
  assert (Hget : getCachedData cfg (tick elapsed s1) =
                 (Some {| cr_data := d; cr_status := Cached;
                          cr_timestamp := now s; cr_age := now s + elapsed - now s |},
                  tick elapsed s1)).
  { rewrite (getCachedData_fresh cfg (tick elapsed s1)
               {| ce_data := d; ce_timestamp := now s;
                  ce_status := classify response |}); cbn.
    - rewrite Hnow. reflexivity.
    - assumption.
    - rewrite Hcr. apply lookup_insert_eq.
    - rewrite Hnow. lia. }
  split; [|split].
  - subst s1. rewrite (afterJson_ok cfg s c k sig response d) by assumption.
    rewrite completion_set_call; [reflexivity|].
    destruct (onSuccess cfg); cbn; unfold setCachedData;
      destruct (cache cfg); cbn; assumption.
  - rewrite (execute_hit _ _ _ _ _ _ Hget).
    eexists. split; [|split].
    + exact (completion_append (setStatus (Some 200) (setData d (tick elapsed s1))) _).
    + reflexivity.
    + reflexivity.
  - rewrite (execute_hit _ _ _ _ _ _ Hget). reflexivity.
Qed.

(** [/posts] with [cacheTime] 300000: the second call comes 299999 ms
    after the first completed. *)
Lemma C5_second_execute_within_cacheTime_hits_witness :
  exists r,
    completion
      (run postsConfig (postsAwaitingJson plain200)
         [EvJson 0%nat (Parsed postsPayload); EvTick 299999; EvExecute None None])
      1%nat = Some (Returned r)
    /\ result_fromCache r = Some true
    /\ result_data r = postsPayload.
Proof.
  refine (proj1 (proj2
    (C5_second_execute_within_cacheTime_hits postsConfig
       (postsAwaitingJson plain200) 0%nat
       (call0 postsConfig None None (AwaitJson 0%nat plain200)) 0%nat plain200
       postsPayload 299999 None None _ _ _ _ _))); 
    first [reflexivity | by vm_compute].
Defined.

(** C7.  For an entry stored under the key of the hook, a read returns
    nothing exactly when [now - timestamp >= cacheTime], and it is that
    read which deletes the entry; [execute] on such a state therefore goes
    to the network: it calls [fetch] once and, when that request succeeds,
    returns [fromCache: false]. *)
Theorem C7_expired_entry_is_evicted_on_read
  (cfg : Config) (s : State) (entry : CacheEntry)
  (rb : option json) (rh : option Headers) (response : Response) (d : json) :
  cache cfg = true ->
  0 <= retryCount cfg ->
  cacheRef s !! getCacheKey cfg = Some entry ->
  ok response = true ->
  let age := now s - ce_timestamp entry in
  let read := getCachedData cfg s in
  (fst read = None <-> cacheTime cfg <= age)
  /\ (cacheRef (snd read) !! getCacheKey cfg = None <-> cacheTime cfg <= age)
  /\ (cacheTime cfg <= age ->
      let c := length (calls s) in
      let s1 := step cfg s (EvExecute rb rh) in
      let s2 := run cfg s1 [EvFetch c (Resolved response); EvJson c (Parsed d)] in
      cacheRef s1 !! getCacheKey cfg = None
      /\ length (fetchLog s1) = S (length (fetchLog s))
      /\ in_flight s1 c = true
      /\ length (fetchLog s2) = S (length (fetchLog s))
      /\ exists r, completion s2 c = Some (Returned r)
                   /\ result_fromCache r = Some false).
Proof.
  intros Hcache Hn He Hok. cbv zeta.
  destruct (Z.lt_ge_cases (now s - ce_timestamp entry) (cacheTime cfg)) as [Hlt|Hge].
  - rewrite (getCachedData_fresh cfg s entry) by assumption. cbn [fst snd].
    rewrite He. repeat split; intros; (discriminate || lia).
  - pose proof (getCachedData_expired cfg s entry Hcache He Hge) as Hx.
    rewrite Hx. cbn [fst snd with_cache cacheRef].
    rewrite lookup_delete_eq.
    split; [done|]. split; [done|]. intros _. cbn [step run fold_left].
    rewrite (execute_miss cfg rb rh s _ Hx Hn).
    set (sig := length (controllers s)). set (c := length (calls s)).
    set (k := call0 cfg rb rh (AwaitFetch sig)).
    set (s1 := {| rs := _ |}).
    assert (Hk1 : calls s1 !! c = Some k)
      by (subst s1 c; cbn; by rewrite list_lookup_middle).
    assert (Hs1 : signal_aborted s1 sig = false)
      by (unfold signal_aborted; subst s1 sig; cbn;
          by rewrite list_lookup_middle).
    split; [cbn; apply lookup_delete_eq|].
    split; [subst s1; cbn; rewrite length_app; cbn; lia|].
    split; [unfold in_flight; rewrite Hk1; reflexivity|].
    rewrite (afterFetch_ok cfg s1 c k sig response) by (assumption || reflexivity).
    set (s2 := set_call c _ _).
    assert (Hc : (c < length (calls s1))%nat) by (eapply lookup_lt_Some; eauto).
    assert (Hk2 : calls s2 !! c = Some (park k (AwaitJson sig response) (retries k)))
      by (subst s2; cbn; by rewrite list_lookup_insert_eq).
    rewrite (afterJson_ok cfg s2 c _ sig response d Hk2) by (reflexivity || assumption).
    split.
    + cbn. destruct (onSuccess cfg); cbn; unfold setCachedData;
        destruct (cache cfg); cbn; rewrite length_app; cbn; lia.
    + exists (networkResult response d). split; [|reflexivity].
      rewrite completion_set_call; [reflexivity|].
      destruct (onSuccess cfg); cbn; unfold setCachedData;
        destruct (cache cfg); cbn; by rewrite length_insert.
Qed.

(** The same hook read again exactly 300000 ms after the entry was
    stored. *)
Lemma C7_expired_entry_is_evicted_on_read_witness :
  fst (getCachedData postsConfig postsExpired) = None
  /\ exists r,
       completion
         (run postsConfig postsExpired
            [EvExecute None None; EvFetch 1%nat (Resolved plain200);
             EvJson 1%nat (Parsed postsPayload)]) 1%nat = Some (Returned r)
       /\ result_fromCache r = Some false.
Proof.
  assert (He : cacheRef postsExpired !! getCacheKey postsConfig =
               Some {| ce_data := postsPayload; ce_timestamp := 0;
                       ce_status := Fresh |}) by (by vm_compute).
  assert (Hn : 0 <= retryCount postsConfig) by (by vm_compute).
  assert (Hage : cacheTime postsConfig <= now postsExpired - 0) by (by vm_compute).
  assert (Hlen : length (calls postsExpired) = 1%nat) by (by vm_compute).
  destruct (C7_expired_entry_is_evicted_on_read postsConfig postsExpired _
              None None plain200 postsPayload eq_refl Hn He eq_refl)
    as (H1 & _ & H3).
  split.
  - apply H1. exact Hage.
  - destruct (H3 Hage) as (_ & _ & _ & _ & H4). 
    rewrite Hlen in H4. exact H4.
Defined.

(** Entries enter the cache in one place only. *)
Lemma cache_insert_only_on_success cfg t ev key e :
  cacheRef (step cfg t ev) !! key = Some e ->
  cacheRef t !! key = Some e
  \/ (cache cfg = true /\ key = getCacheKey cfg
      /\ exists c d k sig response,
           ev = EvJson c (Parsed d) /\ calls t !! c = Some k
           /\ pc k = AwaitJson sig response /\ signal_aborted t sig = false
           /\ e = {| ce_data := d; ce_timestamp := now t;
                     ce_status := classify response |}).
Proof.
  destruct ev as [rb rh| | |dt|c o|c o|c]; cbn [step].
  - (* execute: a read may delete, the rest leaves the cache alone *)
    unfold execute.
    destruct (getCachedData cfg t) as [[cr|] t1] eqn:Hg; cbn.
    + assert (t1 = t) as ->.
      { revert Hg. unfold getCachedData. destruct (negb _); [congruence|].
        destruct (_ !! _); [|congruence]. destruct (_ <? _); congruence. }
      auto.
    + pose proof (loopHead_frame cfg (length (calls t))
        {| requestBody := default (body cfg) rb;
           requestHeaders := default (headers cfg) rh;
           retries := 0; pc := Done ReturnedUndefined |}
        (with_calls (fun l => l ++ [ {| requestBody := default (body cfg) rb;
           requestHeaders := default (headers cfg) rh;
           retries := 0; pc := Done ReturnedUndefined |} ])%list
           (newAbortController (setError None (setLoading true t1))))) as F.
      cbv zeta in F. destruct F as (-> & _). cbn.
      revert Hg. unfold getCachedData. destruct (negb _); [intros [= <-]; auto|].
      destruct (cacheRef t !! getCacheKey cfg) eqn:E; [|intros [= <-]; auto].
      destruct (_ <? _); [discriminate|]. intros [= <-]. cbn.
      intros [_ H]%lookup_delete_Some. auto.
  - unfold abort. destruct (abortControllerRef t); auto.
  - cbn. rewrite lookup_empty. discriminate.
  - auto.
  - pose proof (afterFetch_frame cfg c o t) as F. cbv zeta in F.
    destruct F as (-> & _). auto.
  - unfold afterJson.
    destruct (calls t !! c) as [k|] eqn:Hk; [|auto].
    destruct (pc k) as [| sig response | |] eqn:Hpc; auto.
    unfold observeJson. destruct (signal_aborted t sig) eqn:Hs.
    + pose proof (catchBlock_frame cfg c k abortError t) as F. cbv zeta in F.
      destruct F as (-> & _). auto.
    + destruct o as [d|err].
      * assert (Hcr := cacheRef_afterJson_ok cfg t c k sig response d Hk Hpc Hs).
        unfold afterJson, observeJson in Hcr. rewrite Hk, Hpc, Hs in Hcr.
        rewrite Hcr. destruct (cache cfg); [|auto].
        intros [[<- <-]|[_ H]]%lookup_insert_Some; [|auto].
        right. split; [done|]. split; [done|]. by exists c, d, k, sig, response.
      * pose proof (catchBlock_frame cfg c k err t) as F. cbv zeta in F.
        destruct F as (-> & _). auto.
  - unfold afterTimer.
    destruct (calls t !! c) as [k|]; [|auto]. destruct (pc k); auto.
    pose proof (loopHead_frame cfg c k t) as F. cbv zeta in F.
    destruct F as (-> & _). auto.
Qed.

Lemma cache_disabled_stays_empty cfg t0 evs :
  cache cfg = false -> cacheRef (run cfg (initialState t0) evs) = ∅.
Proof.
  intros Hoff. unfold run. rewrite <- fold_left_rev_right.
  induction (rev evs) as [|ev l IH]; cbn; [reflexivity|].
  apply map_empty. intros key.
  destruct (cacheRef (step cfg _ ev) !! key) as [e|] eqn:E; [|reflexivity].
  apply cache_insert_only_on_success in E as [E|(Hon & _)].
  - rewrite IH, lookup_empty in E. discriminate.
  - congruence.
Qed.

(** C8.  On a successful response the payload is stored under the key of
    the hook whenever [cache] is on, whatever the classification computed
    from the response headers; with [cache] off the cache stays empty for
    ever; and no other event adds an entry. *)
Theorem C8_storage_ignores_classification
  (cfg : Config) (s : State) (c : nat) (k : Call) (sig : nat)
  (response : Response) (d : json) :
  calls s !! c = Some k -> pc k = AwaitJson sig response ->
  signal_aborted s sig = false ->
  let s' := step cfg s (EvJson c (Parsed d)) in
  (cache cfg = true ->
     cacheRef s' !! getCacheKey cfg =
       Some {| ce_data := d; ce_timestamp := now s;
               ce_status := classify response |})
  /\ (cache cfg = false ->
      cacheRef s' = cacheRef s
      /\ forall t0 evs, cacheRef (run cfg (initialState t0) evs) = ∅)
  /\ (forall t ev key e,
        cacheRef (step cfg t ev) !! key = Some e ->
        cacheRef t !! key = Some e
        \/ (cache cfg = true
            /\ exists c' d', ev = EvJson c' (Parsed d') /\ ce_data e = d')).
Proof.
  intros Hk Hpc Hs. cbv zeta. cbn [step].
  rewrite (cacheRef_afterJson_ok cfg s c k sig response d Hk Hpc Hs).
  split; [|split].
  - intros ->. apply lookup_insert_eq.
  - intros Hoff. rewrite Hoff. split; [reflexivity|].
    intros t0 evs. by apply cache_disabled_stays_empty.
  - intros t ev key e H.
    apply cache_insert_only_on_success in H
      as [H|(Hon & _ & c' & d' & k' & sig' & r' & Hev & _ & _ & _ & He)]; [auto|].
    right. split; [assumption|]. exists c', d'. by rewrite Hev, He.
Qed.

(** A response classified [no-store] is stored all the same. *)
Lemma C8_storage_ignores_classification_witness :
  classify noStore200 = NoStore
  /\ cacheRef (step postsConfig (postsAwaitingJson noStore200)
                 (EvJson 0%nat (Parsed postsPayload)))
       !! getCacheKey postsConfig =
     Some {| ce_data := postsPayload; ce_timestamp := 0; ce_status := NoStore |}.
Proof.
  split; [reflexivity|].
  assert (Hk : calls (postsAwaitingJson noStore200) !! 0%nat =
               Some (call0 postsConfig None None (AwaitJson 0%nat noStore200)))
    by (by vm_compute).
  destruct (C8_storage_ignores_classification postsConfig
              (postsAwaitingJson noStore200) 0%nat _ 0%nat noStore200
              postsPayload Hk eq_refl eq_refl) as (H & _).
  exact (H eq_refl).
Defined.

(** C10.  A call answered from the cache writes [data] and [status] only:
    [error] (and [loading]) keep whatever an earlier call left there, while
    the returned record carries the cached payload and status 200.  On a
    miss [error] is reset to [null]. *)
Theorem C10_cache_hit_leaves_error
  (cfg : Config) (s : State) (rb : option json) (rh : option Headers)
  (cached : CachedResult) (s1 : State) :
  getCachedData cfg s = (Some cached, s1) ->
  let s' := step cfg s (EvExecute rb rh) in
  error (rs s') = error (rs s)
  /\ loading (rs s') = loading (rs s)
  /\ data (rs s') = cr_data cached
  /\ status (rs s') = Some 200
  /\ completion s' (length (calls s)) =
       Some (Returned (FromCache (cr_data cached) 200 Cached (cr_age cached)))
  /\ fetchLog s' = fetchLog s
  /\ (forall t t1, getCachedData cfg t = (None, t1) ->
        error (rs (step cfg t (EvExecute rb rh))) = None).
Proof.
  intros Hhit. cbv zeta. cbn [step].
  pose proof (getCachedData_frame cfg s) as F. rewrite Hhit in F. cbn in F.
  destruct F as (F1 & F2 & F3 & F4 & F5 & F6 & F7).
  assert (Hst : cr_status cached = Cached).
  { revert Hhit. unfold getCachedData.
    destruct (cache cfg); cbn; [|discriminate].
    destruct (cacheRef s !! getCacheKey cfg); [|discriminate].
    destruct (_ <? _); [|discriminate]. intros [= <- _]. reflexivity. }
  rewrite (execute_hit cfg rb rh s cached s1 Hhit).
  repeat split; cbn; try congruence.
  - rewrite <- F5, <- Hst.
    exact (completion_append (setStatus (Some 200) (setData (cr_data cached) s1)) _).
  - intros t t1 Hmiss. unfold execute. rewrite Hmiss. unfold loopHead. cbn.
    destruct (_ <=? _); reflexivity.
Qed.

(** After [postsErrorAfterStore] the error of the failed call survives the
    next, cached, call. *)
Lemma C10_cache_hit_leaves_error_witness :
  error (rs postsErrorAfterStore) = Some "HTTP error! status: 500"
  /\ completion postsErrorAfterStore 1%nat = Some (Threw (httpError 500))
  /\ let s' := step postsConfig postsErrorAfterStore (EvExecute None None) in
     error (rs s') = Some "HTTP error! status: 500"
     /\ data (rs s') = postsPayload
     /\ status (rs s') = Some 200.
Proof.
  split; [by vm_compute|]. split; [by vm_compute|].
  assert (Hhit : getCachedData postsConfig postsErrorAfterStore =
                 (Some {| cr_data := postsPayload; cr_status := Cached;
                          cr_timestamp := 0; cr_age := 0 |},
                  postsErrorAfterStore)) by (by vm_compute).
  destruct (C10_cache_hit_leaves_error postsConfig postsErrorAfterStore
              None None _ _ Hhit) as (H1 & _ & H3 & H4 & _).
  cbv zeta. split; [|split].
  - etransitivity; [exact H1 | by vm_compute].
  - exact H3.
  - exact H4.
Defined.

(** ** Retries *)

Lemma transient_not_abort f :
  transient f -> String.eqb (err_name (failure_error f)) "AbortError" = false.
Proof.
  destruct f as [e|response]; cbn; intros H; [|reflexivity].
  by apply String.eqb_neq.
Qed.

(** One failed attempt: where the [catch] block is entered. *)
Lemma afterFetch_failure cfg s c k sig f :
  calls s !! c = Some k -> pc k = AwaitFetch sig ->
  signal_aborted s sig = false -> transient f ->
  exists s0,
    afterFetch cfg c (failure_outcome f) s = catchBlock cfg c k (failure_error f) s0
    /\ calls s0 = calls s /\ abortControllerRef s0 = abortControllerRef s
    /\ controllers s0 = controllers s /\ fetchLog s0 = fetchLog s
    /\ callbackLog s0 = callbackLog s.
Proof.
  intros Hk Hpc Hs Hf. unfold afterFetch, observeFetch. rewrite Hk, Hpc, Hs.
  destruct f as [e|response]; cbn in *.
  - by exists s.
  - rewrite Hf. cbn. by eexists (setStatus _ s).
Qed.

Lemma attempt_then_retry cfg s c k sig f :
  calls s !! c = Some k -> pc k = AwaitFetch sig ->
  abortControllerRef s = Some sig -> signal_aborted s sig = false ->
  transient f -> retries k + 1 <= retryCount cfg ->
  let s' := run cfg s [EvFetch c (failure_outcome f); EvTimer c] in
  exists k',
    calls s' !! c = Some k' /\ pc k' = AwaitFetch sig
    /\ retries k' = retries k + 1
    /\ abortControllerRef s' = Some sig /\ signal_aborted s' sig = false
    /\ length (fetchLog s') = S (length (fetchLog s))
    /\ callbackLog s' = callbackLog s.
Proof.
  intros Hk Hpc Href Hs Hf Hle. cbv zeta. cbn [run fold_left step].
  assert (Hc : (c < length (calls s))%nat) by (eapply lookup_lt_Some; eauto).
  destruct (afterFetch_failure cfg s c k sig f Hk Hpc Hs Hf)
    as (s0 & -> & E1 & E2 & E3 & E4 & E5).
  rewrite catchBlock_retry by (auto using transient_not_abort).
  set (k1 := park k (AwaitTimer _) _).
  rewrite (afterTimer_loop cfg c k1 _ (set_call c k1 s0))
    by (reflexivity || (apply lookup_set_call; by rewrite E1)).
  rewrite (loopHead_fetch cfg c k1 sig)
    by (assumption || (cbn; congruence)).
  exists (park k1 (AwaitFetch sig) (retries k1)).
  split; [cbn; apply list_lookup_insert_eq; by rewrite length_insert, E1|].
  unfold signal_aborted in *. cbn. rewrite E2, E3, E4, E5, length_app. cbn.
  repeat split; (assumption || lia).
Qed.

Lemma attempt_exhausts cfg s c k sig f :
  calls s !! c = Some k -> pc k = AwaitFetch sig ->
  signal_aborted s sig = false ->
  transient f -> retryCount cfg < retries k + 1 ->
  let s' := step cfg s (EvFetch c (failure_outcome f)) in
  error (rs s') = Some (err_message (failure_error f))
  /\ callbackLog s' =
       (callbackLog s ++
          if onError cfg then [CbError (failure_error f) (retries k + 1)] else [])%list
  /\ completion s' c = Some (Threw (failure_error f))
  /\ fetchLog s' = fetchLog s.
Proof.
  intros Hk Hpc Hs Hf Hlt. cbv zeta. cbn [step].
  assert (Hc : (c < length (calls s))%nat) by (eapply lookup_lt_Some; eauto).
  destruct (afterFetch_failure cfg s c k sig f Hk Hpc Hs Hf)
    as (s0 & -> & E1 & E2 & E3 & E4 & E5).
  rewrite catchBlock_exhausted by (auto using transient_not_abort).
  rewrite completion_set_call
    by (destruct (onError cfg); cbn; by rewrite E1).
  destruct (onError cfg); cbn; rewrite E4, E5, ?app_nil_r; done.
Qed.

(** The retry loop, from any attempt on. *)
Lemma retry_loop_exhausts cfg c sig flast fs :
  forall s k,
    calls s !! c = Some k -> pc k = AwaitFetch sig ->
    abortControllerRef s = Some sig -> signal_aborted s sig = false ->
    Forall transient fs -> transient flast ->
    retries k + Z.of_nat (length fs) = retryCount cfg ->
    let s' := run cfg s (failing_attempts c fs flast) in
    length (fetchLog s') = (length (fetchLog s) + length fs)%nat
    /\ error (rs s') = Some (err_message (failure_error flast))
    /\ callbackLog s' =
         (callbackLog s ++
            if onError cfg
            then [CbError (failure_error flast) (retryCount cfg + 1)] else [])%list
    /\ completion s' c = Some (Threw (failure_error flast)).
Proof.
  induction fs as [|f fs IH]; intros s k Hk Hpc Href Hs Hfs Hlast Hn; cbv zeta.
  - cbn in Hn. unfold failing_attempts. cbn [flat_map app run fold_left].
    destruct (attempt_exhausts cfg s c k sig flast Hk Hpc Hs Hlast)
      as (H1 & H2 & H3 & H4); [lia|].
    rewrite H4, Nat.add_0_r. replace (retryCount cfg + 1) with (retries k + 1) by lia.
    done.
  - apply Forall_cons in Hfs as [Hf Hfs]. cbn [length] in Hn.
    unfold failing_attempts. cbn [flat_map app].
    change (run cfg s (?a :: ?b :: ?l)) with (run cfg (run cfg s [a; b]) l).
    destruct (attempt_then_retry cfg s c k sig f Hk Hpc Href Hs Hf)
      as (k' & Hk' & Hpc' & Hr' & Href' & Hs' & Hlog & Hcb); [lia|].
    destruct (IH _ k' Hk' Hpc' Href' Hs' Hfs Hlast) as (H1 & H2 & H3 & H4); [lia|].
    unfold failing_attempts in *. rewrite H1, H2, H3, H4, Hlog, Hcb.
    cbn [length]. repeat split; lia.
Qed.

(** C6.  With [retryCount = N >= 0], when a call goes to the network and
    each of its attempts fails transiently (the promise rejects with
    something other than an [AbortError], or the status is not 2xx), then
    [fetch] is called exactly [N + 1] times, the message of the last error
    is written to [error], [onError] (if supplied) is called once with that
    error and [N + 1], and the call rejects with that error. *)
Theorem C6_exhausted_retries
  (cfg : Config) (s s1 : State) (rb : option json) (rh : option Headers)
  (fs : list Failure) (flast : Failure) :
  getCachedData cfg s = (None, s1) ->
  Forall transient fs -> transient flast ->
  Z.of_nat (length fs) = retryCount cfg ->
  let c := length (calls s) in
  let s' := run cfg s (EvExecute rb rh :: failing_attempts c fs flast) in
  length (fetchLog s') = (length (fetchLog s) + (length fs + 1))%nat
  /\ error (rs s') = Some (err_message (failure_error flast))
  /\ callbackLog s' =
       (callbackLog s ++
          if onError cfg
          then [CbError (failure_error flast) (retryCount cfg + 1)] else [])%list
  /\ completion s' c = Some (Threw (failure_error flast)).
Proof.
  intros Hmiss Hfs Hlast Hn. cbv zeta.
  change (run cfg s (?a :: ?l)) with (run cfg (step cfg s a) l). cbn [step].
  rewrite (execute_miss cfg rb rh s s1 Hmiss) by lia.
  set (s0 := {| rs := _ |}).
  destruct (retry_loop_exhausts cfg (length (calls s)) (length (controllers s))
              flast fs s0 (call0 cfg rb rh (AwaitFetch (length (controllers s)))))
    as (H1 & H2 & H3 & H4); try assumption; try reflexivity.
  - subst s0. cbn. by rewrite list_lookup_middle.
  - unfold signal_aborted. subst s0. cbn. by rewrite list_lookup_middle.
  - rewrite H1, H2, H3, H4. subst s0. cbn [fetchLog callbackLog].
    rewrite length_app. cbn [length]. repeat split; lia.
Qed.

(** [retryCount] 1: a 500, the back-off, then a transport failure. *)
Lemma C6_exhausted_retries_witness :
  let s' := run postsConfig (initialState 0)
              [EvExecute None None;
               EvFetch 0%nat (Resolved status500); EvTimer 0%nat;
               EvFetch 0%nat (Rejected {| err_name := "TypeError";
                                          err_message := "Failed to fetch" |})] in
  length (fetchLog s') = 2%nat
  /\ error (rs s') = Some "Failed to fetch"
  /\ callbackLog s' =
       [CbError {| err_name := "TypeError"; err_message := "Failed to fetch" |} 2].
Proof.
  assert (Hmiss : getCachedData postsConfig (initialState 0) = (None, initialState 0))
    by (by vm_compute).
  assert (Hfs : Forall transient [BadStatus status500])
    by (repeat constructor).
  assert (Hlast : transient (TransportFailure {| err_name := "TypeError";
                                                 err_message := "Failed to fetch" |}))
    by (cbn; discriminate).
  destruct (C6_exhausted_retries postsConfig (initialState 0) (initialState 0)
              None None _ _ Hmiss Hfs Hlast eq_refl) as (H1 & H2 & H3 & _).
  cbv zeta. split; [|split].
  - exact H1.
  - exact H2.
  - exact H3.
Defined.

(** ** The result of [execute] *)

(** C3 as stated fails: with no retries left, a rejected [fetch] makes
    [execute] throw; no record is returned. *)
Lemma C3_exhausted_failure_throws :
  let s := run noRetryConfig (initialState 0)
             [EvExecute None None; EvFetch 0%nat (Rejected failedToFetch)] in
  completion s 0%nat = Some (Threw failedToFetch)
  /\ ~ returns_full_record (Threw failedToFetch).
Proof.
  cbv zeta. split; [by vm_compute|].
  intros (r & Hr & _). discriminate.
Qed.

(** C3 (as the code has it).  The three outcomes of a call that went to
    the network complete differently.  Success resolves with
    [{data, status, fromCache: false, cacheStatus, cacheHeaders}];
    cancellation resolves with [{data: null, status: null, aborted: true}];
    an exhausted failure does not resolve at all: the promise rejects
    with the last error. *)
Theorem C3_completion_per_outcome
  (cfg : Config) (s : State) (c : nat) (k : Call) (sig : nat) :
  calls s !! c = Some k ->
  (forall response d,
      pc k = AwaitJson sig response -> signal_aborted s sig = false ->
      completion (step cfg s (EvJson c (Parsed d))) c =
        Some (Returned (networkResult response d))
      /\ fields (networkResult response d) =
           ["data"; "status"; "fromCache"; "cacheStatus"; "cacheHeaders"]
      /\ result_fromCache (networkResult response d) = Some false
      /\ result_aborted (networkResult response d) = None)
  /\ (forall o,
      pc k = AwaitFetch sig -> signal_aborted s sig = true ->
      completion (step cfg s (EvFetch c o)) c = Some (Returned Aborted)
      /\ fields Aborted = ["data"; "status"; "aborted"]
      /\ result_aborted Aborted = Some true
      /\ result_fromCache Aborted = None)
  /\ (forall f,
      pc k = AwaitFetch sig -> signal_aborted s sig = false ->
      transient f -> retryCount cfg < retries k + 1 ->
      completion (step cfg s (EvFetch c (failure_outcome f))) c =
        Some (Threw (failure_error f))).
Proof.
  intros Hk.
  assert (Hc : (c < length (calls s))%nat) by (eapply lookup_lt_Some; eauto).
  split; [|split].
  - intros response d Hpc Hs. split; [|done]. cbn [step].
    rewrite (afterJson_ok cfg s c k sig response d Hk Hpc Hs).
    rewrite completion_set_call; [reflexivity|].
    destruct (onSuccess cfg); cbn; unfold setCachedData;
      destruct (cache cfg); cbn; assumption.
  - intros o Hpc Hs. split; [|done]. cbn [step].
    unfold afterFetch, observeFetch. rewrite Hk, Hpc, Hs.
    rewrite catchBlock_abort by reflexivity.
    by rewrite completion_set_call.
  - intros f Hpc Hs Hf Hlt.
    by destruct (attempt_exhausts cfg s c k sig f Hk Hpc Hs Hf Hlt) as (_ & _ & H & _).
Qed.

(** [retryCount] 0 and a status 500. *)
Lemma C3_completion_per_outcome_witness :
  completion
    (step noRetryConfig (run noRetryConfig (initialState 0) [EvExecute None None])
       (EvFetch 0%nat (Resolved status500))) 0%nat =
  Some (Threw (httpError 500)).
Proof.
  assert (Hk : calls (run noRetryConfig (initialState 0) [EvExecute None None])
                 !! 0%nat = Some (call0 noRetryConfig None None (AwaitFetch 0%nat)))
    by (by vm_compute).
  destruct (C3_completion_per_outcome noRetryConfig _ 0%nat _ 0%nat Hk)
    as (_ & _ & H).
  apply (H (BadStatus status500)); by vm_compute.
Defined.

(** ** Overlapping calls *)

(** C1 as stated fails: after a second call has started, the response to
    the first one still changes [status] and then [data]. *)
Lemma C1_superseded_call_writes :
  length (calls twoCallsInFlight) = 2%nat
  /\ in_flight twoCallsInFlight 0%nat = true
  /\ in_flight twoCallsInFlight 1%nat = true
  /\ signal_aborted twoCallsInFlight 0%nat = false
  /\ status (rs twoCallsInFlight) = None
  /\ status (rs (step noRetryConfig twoCallsInFlight
                   (EvFetch 0%nat (Resolved plain200)))) = Some 200
  /\ data (rs (run noRetryConfig twoCallsInFlight
                 [EvFetch 0%nat (Resolved plain200);
                  EvJson 0%nat (Parsed postsPayload)])) = postsPayload.
Proof. by vm_compute. Qed.

(** C1 (as the code has it).  Starting a second call neither signals the
    token of a call that is in flight nor fences it off: the earlier call
    stays parked on its [fetch] with its signal unfired, and when that
    [fetch] settles it writes [status] (and then [data]) although it is no
    longer the most recent call. *)
Theorem C1_superseded_call_keeps_writing
  (cfg : Config) (s : State) (a : nat) (k : Call) (sig : nat)
  (rb : option json) (rh : option Headers) (response : Response) (d : json) :
  calls s !! a = Some k -> pc k = AwaitFetch sig ->
  signal_aborted s sig = false ->
  let s1 := step cfg s (EvExecute rb rh) in
  length (calls s1) = S (length (calls s))
  /\ calls s1 !! a = Some k
  /\ signal_aborted s1 sig = false
  /\ status (rs (step cfg s1 (EvFetch a (Resolved response)))) =
       Some (resp_status response)
  /\ (ok response = true ->
      data (rs (run cfg s1 [EvFetch a (Resolved response); EvJson a (Parsed d)])) = d).
Proof.
  intros Hk Hpc Hs. cbv zeta. cbn [step run fold_left].
  assert (Ha : (a < length (calls s))%nat) by (eapply lookup_lt_Some; eauto).
  destruct (calls_execute cfg rb rh s) as (kb & Hcalls).
  pose proof (signal_aborted_execute cfg rb rh s sig Hs) as Hs1.
  set (s1 := execute cfg rb rh s) in *.
  assert (Hk1 : calls s1 !! a = Some k) by (by rewrite Hcalls, lookup_app_l).
  split; [rewrite Hcalls, length_app; cbn; lia|].
  split; [assumption|]. split; [assumption|]. split.
  - unfold afterFetch, observeFetch. rewrite Hk1, Hpc, Hs1.
    destruct (negb (ok response)); [|reflexivity].
    by destruct (rs_catchBlock cfg a k (httpError (resp_status response))
                   (setStatus (Some (resp_status response)) s1)) as (_ & _ & ->).
  - intros Hok.
    rewrite (afterFetch_ok cfg s1 a k sig response) by assumption.
    set (s2 := set_call a _ _).
    assert (Hk2 : calls s2 !! a = Some (park k (AwaitJson sig response) (retries k))).
    { subst s2. apply lookup_set_call. cbn. rewrite Hcalls, length_app. lia. }
    rewrite (afterJson_ok cfg s2 a _ sig response d Hk2) by (reflexivity || assumption).
    cbn. destruct (onSuccess cfg); cbn; unfold setCachedData;
      destruct (cache cfg); reflexivity.
Qed.

(** Two calls back to back, then the response to the first. *)
Lemma C1_superseded_call_keeps_writing_witness :
  let s := run noRetryConfig (initialState 0) [EvExecute None None] in
  let s1 := step noRetryConfig s (EvExecute None None) in
  length (calls s1) = 2%nat
  /\ status (rs (step noRetryConfig s1 (EvFetch 0%nat (Resolved plain200)))) =
       Some 200.
Proof.
  cbv zeta.
  assert (Hk : calls (run noRetryConfig (initialState 0) [EvExecute None None])
                 !! 0%nat = Some (call0 noRetryConfig None None (AwaitFetch 0%nat)))
    by (by vm_compute).
  destruct (C1_superseded_call_keeps_writing noRetryConfig _ 0%nat _ 0%nat
              None None plain200 postsPayload Hk eq_refl eq_refl)
    as (H1 & _ & _ & H4 & _).
  split.
  - exact H1.
  - exact H4.
Defined.

(** ** Cancellation *)

(** C2.  A call in flight on the current token, after [abort()]: whatever
    the network then delivers, the call resolves with
    [{data: null, status: null, aborted: true}], [error] is untouched and
    no callback runs.  [loading], however, is left exactly as it was, and
    it was [true] for a call in flight. *)
Theorem C2_abort_resolves_but_loading_stays
  (cfg : Config) (s : State) (c : nat) (k : Call) (cur : nat)
  (fo : FetchOutcome) (jo : JsonOutcome) :
  calls s !! c = Some k ->
  abortControllerRef s = Some cur -> (cur < length (controllers s))%nat ->
  awaits_current cfg k cur ->
  let s' := run cfg s (EvAbort :: settles c (pc k) fo jo) in
  completion s' c = Some (Returned Aborted)
  /\ result_aborted Aborted = Some true
  /\ error (rs s') = error (rs s)
  /\ callbackLog s' = callbackLog s
  /\ loading (rs s') = loading (rs s).
Proof.
  intros Hk Href Hlt Hcur. cbv zeta.
  assert (Hc : (c < length (calls s))%nat) by (eapply lookup_lt_Some; eauto).
  pose proof (signal_aborted_abort s cur Href Hlt) as Hab.
  assert (Hk' : calls (abort s) !! c = Some k)
    by (unfold abort; by rewrite Href).
  assert (Hframe : rs (abort s) = rs s /\ callbackLog (abort s) = callbackLog s
                   /\ length (calls (abort s)) = length (calls s)
                   /\ abortControllerRef (abort s) = Some cur)
    by (unfold abort; by rewrite Href).
  destruct Hframe as (Hrs & Hcb & Hlen & Href').
  unfold awaits_current in Hcur.
  destruct (pc k) as [sig|sig response|delay|] eqn:Hpc; [| | |done];
    cbn [settles run fold_left step].
  - subst sig. unfold afterFetch, observeFetch. rewrite Hk', Hpc, Hab.
    rewrite catchBlock_abort by reflexivity.
    rewrite completion_set_call by lia. cbn. by rewrite Hrs, Hcb.
  - subst sig. unfold afterJson, observeJson. rewrite Hk', Hpc, Hab.
    rewrite catchBlock_abort by reflexivity.
    rewrite completion_set_call by lia. cbn. by rewrite Hrs, Hcb.
  - rewrite (afterTimer_loop cfg c k delay (abort s) Hk' Hpc).
    rewrite (loopHead_fetch cfg c k cur (abort s) Hcur Href').
    set (s1 := set_call c _ _).
    assert (Hk1 : calls s1 !! c = Some (park k (AwaitFetch cur) (retries k)))
      by (subst s1; apply lookup_set_call; cbn; lia).
    unfold afterFetch, observeFetch. rewrite Hk1. cbn [pc park].
    replace (signal_aborted s1 cur) with true by (symmetry; exact Hab).
    rewrite catchBlock_abort by reflexivity.
    rewrite completion_set_call by (subst s1; cbn; rewrite length_insert; lia).
    subst s1. cbn. by rewrite Hrs, Hcb.
Qed.

(** In [abortedWhileFetching] the call is resolved as aborted and
    [loading] is still [true]. *)
Lemma C2_abort_resolves_but_loading_stays_witness :
  completion abortedWhileFetching 0%nat = Some (Returned Aborted)
  /\ error (rs abortedWhileFetching) = None
  /\ callbackLog abortedWhileFetching = []
  /\ loading (rs abortedWhileFetching) = true.
Proof.
  assert (Hk : calls (mount (defaultOptions "/api/posts") 0) !! 0%nat =
               Some (call0 (defaultOptions "/api/posts") None None (AwaitFetch 0%nat)))
    by (by vm_compute).
  assert (Hlt : (0 < length (controllers (mount (defaultOptions "/api/posts") 0)))%nat)
    by (vm_compute; lia).
  destruct (C2_abort_resolves_but_loading_stays (defaultOptions "/api/posts")
              (mount (defaultOptions "/api/posts") 0) 0%nat _ 0%nat
              (Resolved plain200) (Parsed postsPayload) Hk eq_refl Hlt eq_refl)
    as (H1 & _ & H3 & H4 & H5).
  unfold abortedWhileFetching. split; [|split; [|split]].
  - exact H1.
  - etransitivity; [exact H3 | by vm_compute].
  - etransitivity; [exact H4 | by vm_compute].
  - etransitivity; [exact H5 | by vm_compute].
Defined.

(** * Further properties of the hook *)

(** ** [clearCache], [abort] and the edges of [execute] *)

(** X1.  [clearCache] empties the cache and touches nothing else; the next
    [execute] therefore goes to the network even when a fresh entry had
    been stored: it calls [fetch] once and is in flight. *)
Theorem X1_clearCache_forces_refetch
  (cfg : Config) (s : State) (rb : option json) (rh : option Headers) :
  0 <= retryCount cfg ->
  let s1 := step cfg s EvClearCache in
  let s2 := step cfg s1 (EvExecute rb rh) in
  cacheRef s1 = ∅
  /\ rs s1 = rs s /\ calls s1 = calls s /\ controllers s1 = controllers s
  /\ fetchLog s1 = fetchLog s /\ callbackLog s1 = callbackLog s
  /\ length (fetchLog s2) = S (length (fetchLog s))
  /\ in_flight s2 (length (calls s)) = true
  /\ loading (rs s2) = true.
Proof.
  intros Hn. cbv zeta. cbn [step].
  assert (Hmiss : getCachedData cfg (clearCache s) = (None, clearCache s)).
  { unfold getCachedData. destruct (negb (cache cfg)); [reflexivity|].
    cbn. by rewrite lookup_empty. }
  rewrite (execute_miss cfg rb rh (clearCache s) _ Hmiss Hn).
  repeat split; cbn.
  - rewrite length_app. cbn. lia.
  - unfold in_flight. cbn. by rewrite list_lookup_middle.
Qed.

Lemma X1_clearCache_forces_refetch_witness :
  let s := run postsConfig (postsAwaitingJson plain200)
             [EvJson 0%nat (Parsed postsPayload)] in
  length (fetchLog (run postsConfig s [EvClearCache; EvExecute None None])) =
    S (length (fetchLog s)).
Proof.
  assert (Hn : 0 <= retryCount postsConfig) by (by vm_compute).
  destruct (X1_clearCache_forces_refetch postsConfig
              (run postsConfig (postsAwaitingJson plain200)
                 [EvJson 0%nat (Parsed postsPayload)]) None None Hn)
    as (_ & _ & _ & _ & _ & _ & H & _).
  exact H.
Defined.

(** X2.  [abort] fires the signal of the current controller and does
    nothing else: a controller's flag after [abort] is [true] if it is
    the current one and is what it was otherwise, no controller appears
    or disappears, and RequestState, cache, clock, calls and logs stay as
    they are.  Before any call has gone to the network there is no
    controller and [abort] changes nothing at all; a second [abort]
    changes nothing more. *)
Theorem X2_abort_is_confined_and_idempotent (cfg : Config) (s : State) :
  let s1 := step cfg s EvAbort in
  rs s1 = rs s /\ cacheRef s1 = cacheRef s /\ calls s1 = calls s
  /\ fetchLog s1 = fetchLog s /\ callbackLog s1 = callbackLog s
  /\ abortControllerRef s1 = abortControllerRef s
  /\ now s1 = now s
  /\ length (controllers s1) = length (controllers s)
  /\ (forall sig,
        controllers s1 !! sig =
          if bool_decide (abortControllerRef s = Some sig)
          then (fun _ => true) <$> controllers s !! sig
          else controllers s !! sig)
  /\ (abortControllerRef s = None -> s1 = s)
  /\ step cfg s1 EvAbort = s1.
Proof.
  cbv zeta. cbn [step]. unfold abort.
  destruct (abortControllerRef s) as [i|] eqn:E; cbn; rewrite ?E.
  - rewrite length_insert. do 8 (split; [reflexivity|]).
    split; [|split; [discriminate|]].
    + intros sig. destruct (decide (i = sig)) as [<-|Hne].
      * rewrite bool_decide_eq_true_2 by reflexivity.
        destruct (controllers s !! i) as [b|] eqn:El.
        -- rewrite list_lookup_insert_eq by (by eapply lookup_lt_Some). reflexivity.
        -- rewrite list_lookup_insert_None. by rewrite El.
      * rewrite bool_decide_eq_false_2 by congruence.
        by rewrite list_lookup_insert_ne.
    + cbn. f_equal. apply list_insert_insert_eq.
  - done.
Qed.

(** A signal that has fired stays fired. *)
Lemma signal_stays_fired cfg s ev sig :
  signal_aborted s sig = true -> signal_aborted (step cfg s ev) sig = true.
Proof.
  unfold signal_aborted. intros H.
  assert (Hlt : (sig < length (controllers s))%nat).
  { destruct (controllers s !! sig) eqn:E; [|discriminate].
    by eapply lookup_lt_Some. }
  destruct ev as [rb rh| | |dt|c o|c o|c]; cbn [step].
  - destruct (controllers_execute cfg rb rh s) as [-> | ->]; [assumption|].
    by rewrite lookup_app_l.
  - unfold abort. destruct (abortControllerRef s) as [i|]; [|assumption]. cbn.
    destruct (decide (i = sig)) as [->|Hne].
    + by rewrite list_lookup_insert_eq.
    + by rewrite list_lookup_insert_ne.
  - assumption.
  - assumption.
  - pose proof (afterFetch_frame cfg c o s) as F. cbv zeta in F.
    destruct F as (_ & -> & _). assumption.
  - unfold afterJson. destruct (calls s !! c) as [k|]; [|assumption].
    destruct (pc k); try assumption.
    destruct (observeJson s sig0 o) as [d|e].
    + cbn. destruct (onSuccess cfg); cbn; unfold setCachedData;
        destruct (cache cfg); assumption.
    + pose proof (catchBlock_frame cfg c k e s) as F. cbv zeta in F.
      destruct F as (_ & -> & _). assumption.
  - unfold afterTimer. destruct (calls s !! c) as [k|]; [|assumption].
    destruct (pc k); try assumption.
    pose proof (loopHead_frame cfg c k s) as F. cbv zeta in F.
    destruct F as (_ & -> & _). assumption.
Qed.

(** X3.  No event un-fires a signal: once a controller has been aborted,
    it stays aborted along every run. *)
Theorem X3_aborted_signal_stays_aborted
  (cfg : Config) (s : State) (evs : list Event) (sig : nat) :
  signal_aborted s sig = true -> signal_aborted (run cfg s evs) sig = true.
Proof.
  revert s. induction evs as [|ev evs IH]; intros s H; [assumption|].
  cbn. apply IH. by apply signal_stays_fired.
Qed.

Lemma X3_aborted_signal_stays_aborted_witness :
  signal_aborted
    (run (defaultOptions "/api/posts") (step (defaultOptions "/api/posts")
            (mount (defaultOptions "/api/posts") 0) EvAbort)
       [EvExecute None None; EvFetch 0%nat (Resolved plain200); EvAbort])
    0%nat = true.
Proof.
  apply X3_aborted_signal_stays_aborted. by vm_compute.
Defined.

(** X4.  [abort] reaches the latest controller only.  Once a newer call
    has gone to the network, the signal an earlier call is waiting on can
    no longer be fired through the hook: after [execute] and [abort] it is
    still unfired, and the earlier call is still parked on its [fetch]. *)
Theorem X4_abort_cannot_reach_superseded_call
  (cfg : Config) (s s0 : State) (a : nat) (k : Call) (sig : nat)
  (rb : option json) (rh : option Headers) :
  calls s !! a = Some k -> pc k = AwaitFetch sig ->
  (sig < length (controllers s))%nat ->
  signal_aborted s sig = false ->
  getCachedData cfg s = (None, s0) ->
  let s' := run cfg s [EvExecute rb rh; EvAbort] in
  signal_aborted s' sig = false
  /\ calls s' !! a = Some k
  /\ signal_aborted s' (length (controllers s)) = true.
Proof.
  intros Hk Hpc Hlt Hs Hmiss. cbv zeta. cbn [run fold_left step].
  assert (Hctl : controllers (execute cfg rb rh s) = (controllers s ++ [false])%list
                 /\ abortControllerRef (execute cfg rb rh s) =
                      Some (length (controllers s))).
  { pose proof (getCachedData_frame cfg s) as F. cbv zeta in F.
    rewrite Hmiss in F. cbn in F. destruct F as (_ & _ & F & _).
    unfold execute. rewrite Hmiss.
    match goal with |- context [loopHead cfg ?c ?k ?t] =>
      pose proof (loopHead_frame cfg c k t) as G end.
    cbv zeta in G. destruct G as (_ & -> & -> & _). cbn. by rewrite F. }
  destruct Hctl as (Hctl & Href).
  destruct (calls_execute cfg rb rh s) as (kb & Hcalls).
  assert (Ha : (a < length (calls s))%nat) by (eapply lookup_lt_Some; eauto).
  unfold signal_aborted in *. unfold abort. rewrite Href. cbn.
  rewrite Hctl, Hcalls.
  rewrite list_lookup_insert_ne by lia.
  rewrite lookup_app_l by assumption.
  rewrite lookup_app_l by assumption.
  rewrite list_lookup_insert_eq by (rewrite length_app; cbn; lia).
  done.
Qed.

Lemma X4_abort_cannot_reach_superseded_call_witness :
  let s := run noRetryConfig (initialState 0) [EvExecute None None] in
  let s' := run noRetryConfig s [EvExecute None None; EvAbort] in
  signal_aborted s' 0%nat = false
  /\ signal_aborted s' (length (controllers s)) = true.
Proof.
  assert (Hk : calls (run noRetryConfig (initialState 0) [EvExecute None None])
                 !! 0%nat = Some (call0 noRetryConfig None None (AwaitFetch 0%nat)))
    by (by vm_compute).
  assert (Hlt : (0 < length (controllers
                   (run noRetryConfig (initialState 0) [EvExecute None None])))%nat)
    by (vm_compute; lia).
  destruct (X4_abort_cannot_reach_superseded_call noRetryConfig
              (run noRetryConfig (initialState 0) [EvExecute None None])
              (run noRetryConfig (initialState 0) [EvExecute None None])
              0%nat _ 0%nat None None Hk eq_refl Hlt eq_refl eq_refl)
    as (H1 & _ & H3).
  split; [exact H1 | exact H3].
Defined.

(** X5.  An [AbortError] is never retried and never reported.  Whatever
    the number of retries left, and whether or not the signal of the call
    has fired, a [fetch] rejecting with an error named [AbortError] ends
    the call with the aborted record: no further [fetch], no timer, no
    write to RequestState, no callback. *)
Theorem X5_abort_error_is_never_retried
  (cfg : Config) (s : State) (c : nat) (k : Call) (sig : nat) (e : JsError) :
  calls s !! c = Some k -> pc k = AwaitFetch sig ->
  err_name e = "AbortError" ->
  let s' := step cfg s (EvFetch c (Rejected e)) in
  completion s' c = Some (Returned Aborted)
  /\ rs s' = rs s
  /\ fetchLog s' = fetchLog s
  /\ callbackLog s' = callbackLog s
  /\ cacheRef s' = cacheRef s.
Proof.
  intros Hk Hpc He. cbv zeta. cbn [step].
  assert (Hc : (c < length (calls s))%nat) by (eapply lookup_lt_Some; eauto).
  unfold afterFetch, observeFetch. rewrite Hk, Hpc.
  destruct (signal_aborted s sig);
    (rewrite catchBlock_abort by (by rewrite ?He));
    by rewrite completion_set_call.
Qed.

Lemma X5_abort_error_is_never_retried_witness :
  let s := mount (defaultOptions "/api/posts") 0 in
  let s' := step (defaultOptions "/api/posts") s
              (EvFetch 0%nat (Rejected {| err_name := "AbortError";
                                          err_message := "Aborted" |})) in
  completion s' 0%nat = Some (Returned Aborted) /\ fetchLog s' = fetchLog s.
Proof.
  assert (Hk : calls (mount (defaultOptions "/api/posts") 0) !! 0%nat =
               Some (call0 (defaultOptions "/api/posts") None None (AwaitFetch 0%nat)))
    by (by vm_compute).
  destruct (X5_abort_error_is_never_retried (defaultOptions "/api/posts")
              (mount (defaultOptions "/api/posts") 0) 0%nat _ 0%nat
              {| err_name := "AbortError"; err_message := "Aborted" |}
              Hk eq_refl eq_refl) as (H1 & _ & H3 & _).
  split; [exact H1 | exact H3].
Defined.

(** X6.  A negative [retryCount] starves the loop: on a miss [execute]
    sets [loading], clears [error], makes a controller, never calls
    [fetch] and resolves with [undefined]. *)
Theorem X6_negative_retryCount_never_fetches
  (cfg : Config) (s s0 : State) (rb : option json) (rh : option Headers) :
  retryCount cfg < 0 ->
  getCachedData cfg s = (None, s0) ->
  let s' := step cfg s (EvExecute rb rh) in
  completion s' (length (calls s)) = Some ReturnedUndefined
  /\ fetchLog s' = fetchLog s
  /\ loading (rs s') = true
  /\ error (rs s') = None
  /\ length (controllers s') = S (length (controllers s)).
Proof.
  intros Hneg Hmiss. cbv zeta. cbn [step].
  pose proof (getCachedData_frame cfg s) as F. cbv zeta in F.
  rewrite Hmiss in F. cbn in F. destruct F as (F1 & F2 & F3 & F4 & F5 & F6 & F7).
  unfold execute. rewrite Hmiss. unfold loopHead. cbn.
  destruct (Z.leb_spec 0 (retryCount cfg)); [lia|].
  unfold completion. cbn. rewrite F3, F5, F6, insert_last, length_app.
  rewrite list_lookup_middle by reflexivity. cbn. repeat split. lia.
Qed.

Lemma X6_negative_retryCount_never_fetches_witness :
  let cfg := {| endpoint := "/posts"; method := "GET"; body := JNull;
                headers := []; immediate := false; cache := false;
                cacheTime := 0; retryCount := -1; retryDelay := 1000;
                onSuccess := false; onError := false;
                skipCacheHeaders := false |} in
  let s' := step cfg (initialState 0) (EvExecute None None) in
  completion s' 0%nat = Some ReturnedUndefined /\ fetchLog s' = [].
Proof.
  cbv zeta.
  match goal with |- completion (step ?cfg _ _) _ = _ /\ _ =>
    destruct (X6_negative_retryCount_never_fetches cfg (initialState 0)
                (initialState 0) None None) as (H1 & H2 & _)
  end; [by vm_compute | reflexivity |].
  split; [exact H1 | exact H2].
Defined.

(** ** Retries that end well *)

Lemma run_app cfg s evs1 evs2 :
  run cfg s (evs1 ++ evs2) = run cfg (run cfg s evs1) evs2.
Proof. unfold run. apply fold_left_app. Qed.

(** A failed attempt with retries left, up to the back-off: the call is
    parked on a timer of [retryDelay * n] for the [n]-th failure, and
    nothing but [status] has been written. *)
Lemma attempt_fails_then_waits cfg s c k sig f :
  calls s !! c = Some k -> pc k = AwaitFetch sig ->
  signal_aborted s sig = false ->
  transient f -> retries k + 1 <= retryCount cfg ->
  let s' := step cfg s (EvFetch c (failure_outcome f)) in
  calls s' !! c =
    Some (park k (AwaitTimer (retryDelay cfg * (retries k + 1))) (retries k + 1))
  /\ error (rs s') = error (rs s) /\ data (rs s') = data (rs s)
  /\ loading (rs s') = loading (rs s)
  /\ cacheRef s' = cacheRef s /\ now s' = now s
  /\ abortControllerRef s' = abortControllerRef s
  /\ controllers s' = controllers s
  /\ fetchLog s' = fetchLog s /\ callbackLog s' = callbackLog s.
Proof.
  intros Hk Hpc Hs Hf Hle. cbv zeta. cbn [step].
  assert (Hc : (c < length (calls s))%nat) by (eapply lookup_lt_Some; eauto).
  unfold afterFetch, observeFetch. rewrite Hk, Hpc, Hs.
  destruct f as [e|response]; cbn [failure_outcome transient] in Hf |- *.
  - rewrite catchBlock_retry by (assumption || by apply String.eqb_neq).
    split; [by apply lookup_set_call|done].
  - rewrite Hf. cbn [negb].
    rewrite catchBlock_retry by (assumption || reflexivity).
    split; [by apply lookup_set_call|done].
Qed.

(** The same attempt and the timer after it: back on [fetch]. *)
Lemma attempt_fails_then_refetches cfg s c k sig f :
  calls s !! c = Some k -> pc k = AwaitFetch sig ->
  abortControllerRef s = Some sig -> signal_aborted s sig = false ->
  transient f -> retries k + 1 <= retryCount cfg ->
  let s' := run cfg s [EvFetch c (failure_outcome f); EvTimer c] in
  calls s' !! c =
    Some (park k (AwaitFetch sig) (retries k + 1))
  /\ error (rs s') = error (rs s) /\ data (rs s') = data (rs s)
  /\ loading (rs s') = loading (rs s)
  /\ cacheRef s' = cacheRef s /\ now s' = now s
  /\ abortControllerRef s' = Some sig
  /\ signal_aborted s' sig = false
  /\ length (fetchLog s') = S (length (fetchLog s))
  /\ callbackLog s' = callbackLog s.
Proof.
  intros Hk Hpc Href Hs Hf Hle. cbv zeta. cbn [run fold_left].
  destruct (attempt_fails_then_waits cfg s c k sig f Hk Hpc Hs Hf Hle)
    as (Hk1 & E1 & E2 & E3 & E4 & E5 & E6 & E7 & E8 & E9).
  remember (step cfg s (EvFetch c (failure_outcome f))) as s1 eqn:Heq.
  clear Heq. cbn [step].
  rewrite (afterTimer_loop cfg c _ _ s1 Hk1 eq_refl).
  rewrite (loopHead_fetch cfg c _ sig s1)
    by (congruence || (unfold park; cbn [retries]; lia)).
  assert (Hc : (c < length (calls s1))%nat) by (eapply lookup_lt_Some; eauto).
  split; [by apply lookup_set_call|].
  unfold signal_aborted in *. cbn. rewrite E1, E2, E3, E4, E5, E7, E8, E9, length_app.
  cbn. repeat split; (assumption || congruence || lia).
Qed.

(** Any number of failed attempts within the budget. *)
Lemma failed_attempts_run cfg c sig fs :
  forall s k,
    calls s !! c = Some k -> pc k = AwaitFetch sig ->
    abortControllerRef s = Some sig -> signal_aborted s sig = false ->
    Forall transient fs ->
    retries k + Z.of_nat (length fs) <= retryCount cfg ->
    let s' := run cfg s (failed_attempts c fs) in
    calls s' !! c =
      Some (park k (AwaitFetch sig) (retries k + Z.of_nat (length fs)))
    /\ error (rs s') = error (rs s) /\ data (rs s') = data (rs s)
    /\ loading (rs s') = loading (rs s)
    /\ cacheRef s' = cacheRef s /\ now s' = now s
    /\ abortControllerRef s' = Some sig
    /\ signal_aborted s' sig = false
    /\ length (fetchLog s') = (length (fetchLog s) + length fs)%nat
    /\ callbackLog s' = callbackLog s.
Proof.
  induction fs as [|f fs IH]; intros s k Hk Hpc Href Hs Hfs Hn; cbv zeta.
  - cbn. rewrite Z.add_0_r, Nat.add_0_r.
    replace (park k (AwaitFetch sig) (retries k)) with k
      by (destruct k; cbn in *; by subst).
    done.
  - apply Forall_cons in Hfs as [Hf Hfs]. cbn [length] in Hn.
    unfold failed_attempts. cbn [flat_map app].
    change (run cfg s (?a :: ?b :: ?l)) with (run cfg (run cfg s [a; b]) l).
    destruct (attempt_fails_then_refetches cfg s c k sig f Hk Hpc Href Hs Hf)
      as (Hk1 & E1 & E2 & E3 & E4 & E5 & E6 & E7 & E8 & E9); [lia|].
    destruct (IH _ _ Hk1 eq_refl E6 E7 Hfs) as (Hk2 & F); [cbn; lia|].
    unfold failed_attempts in *. rewrite Hk2.
    destruct F as (-> & -> & -> & -> & -> & -> & -> & -> & ->).
    cbn [length]. rewrite E8.
    split; [unfold park; cbn; do 2 f_equal; lia|].
    repeat split; try done. lia.
Qed.

(** X7.  Failures within the retry budget are invisible once an attempt
    succeeds.  On a miss, after [k <= retryCount] transient failures and
    then a 2xx response whose body parses, the call resolves with the
    network record, [fetch] has been called exactly [k + 1] times,
    [error] is [null], [onError] has not been called and [onSuccess] (if
    supplied) exactly once. *)
Theorem X7_retry_then_success
  (cfg : Config) (s s0 : State) (rb : option json) (rh : option Headers)
  (fs : list Failure) (response : Response) (d : json) :
  getCachedData cfg s = (None, s0) ->
  Forall transient fs ->
  Z.of_nat (length fs) <= retryCount cfg ->
  ok response = true ->
  let c := length (calls s) in
  let s' := run cfg s
              (EvExecute rb rh :: failed_attempts c fs ++
                 [EvFetch c (Resolved response); EvJson c (Parsed d)])%list in
  completion s' c = Some (Returned (networkResult response d))
  /\ length (fetchLog s') = (length (fetchLog s) + (length fs + 1))%nat
  /\ error (rs s') = None
  /\ data (rs s') = d
  /\ status (rs s') = Some (resp_status response)
  /\ callbackLog s' =
       (callbackLog s ++
          if onSuccess cfg then [CbSuccess d response] else [])%list.
Proof.
  intros Hmiss Hfs Hn Hok. cbv zeta.
  change (run cfg s (?a :: ?l)) with (run cfg (step cfg s a) l). cbn [step].
  rewrite run_app.
  rewrite (execute_miss cfg rb rh s s0 Hmiss) by lia.
  set (s1 := {| rs := _ |}).
  set (sig := length (controllers s)). set (c := length (calls s)).
  destruct (failed_attempts_run cfg c sig fs s1 (call0 cfg rb rh (AwaitFetch sig)))
    as (Hk & E1 & E2 & E3 & E4 & E5 & E6 & E7 & E8 & E9);
    try assumption; try reflexivity.
  - subst s1 c. cbn. by rewrite list_lookup_middle.
  - unfold signal_aborted. subst s1 sig. cbn. by rewrite list_lookup_middle.
  - remember (run cfg s1 (failed_attempts c fs)) as s2 eqn:Heq. clear Heq.
    cbn [run fold_left step].
    rewrite (afterFetch_ok cfg s2 c _ sig response Hk eq_refl E7 Hok).
    set (s3 := set_call c _ _).
    assert (Hc : (c < length (calls s2))%nat) by (eapply lookup_lt_Some; eauto).
    assert (Hk3 : calls s3 !! c = Some
              (park (park (call0 cfg rb rh (AwaitFetch sig)) (AwaitFetch sig)
                       (retries (call0 cfg rb rh (AwaitFetch sig)) + Z.of_nat (length fs)))
                 (AwaitJson sig response)
                 (retries (call0 cfg rb rh (AwaitFetch sig)) + Z.of_nat (length fs))))
      by (subst s3; by apply lookup_set_call).
    rewrite (afterJson_ok cfg s3 c _ sig response d Hk3 eq_refl)
      by (subst s3; exact E7).
    rewrite completion_set_call
      by (subst s3; destruct (onSuccess cfg); cbn; unfold setCachedData;
          destruct (cache cfg); cbn; by rewrite length_insert).
    subst s3. destruct (onSuccess cfg); cbn; unfold setCachedData;
      destruct (cache cfg); cbn; rewrite E1, E8, E9; subst s1; cbn;
      rewrite length_app, ?app_nil_r; cbn; repeat split; lia.
Qed.

Lemma X7_retry_then_success_witness :
  let s' := run postsConfig (initialState 0)
              [EvExecute None None;
               EvFetch 0%nat (Rejected failedToFetch); EvTimer 0%nat;
               EvFetch 0%nat (Resolved plain200);
               EvJson 0%nat (Parsed postsPayload)] in
  completion s' 0%nat = Some (Returned (networkResult plain200 postsPayload))
  /\ length (fetchLog s') = 2%nat
  /\ error (rs s') = None.
Proof.
  assert (Hfs : Forall transient [TransportFailure failedToFetch])
    by (repeat constructor; cbn; discriminate).
  assert (Hn : Z.of_nat (length [TransportFailure failedToFetch])
               <= retryCount postsConfig) by (by vm_compute).
  destruct (X7_retry_then_success postsConfig (initialState 0) (initialState 0)
              None None _ plain200 postsPayload eq_refl Hfs Hn eq_refl)
    as (H1 & H2 & H3 & _).
  cbv zeta. split; [exact H1 | split; [exact H2 | exact H3]].
Defined.

(** X8.  The back-off is linear.  On a miss, when the [n]-th attempt in a
    row fails transiently and a retry is left, the call waits on a timer
    of exactly [retryDelay * n] before it calls [fetch] again. *)
Theorem X8_linear_backoff
  (cfg : Config) (s s0 : State) (rb : option json) (rh : option Headers)
  (fs : list Failure) (f : Failure) :
  getCachedData cfg s = (None, s0) ->
  Forall transient fs -> transient f ->
  Z.of_nat (length fs) + 1 <= retryCount cfg ->
  let c := length (calls s) in
  let n := Z.of_nat (length fs) + 1 in
  let s' := run cfg s
              (EvExecute rb rh :: failed_attempts c fs ++
                 [EvFetch c (failure_outcome f)])%list in
  exists k, calls s' !! c = Some k
            /\ pc k = AwaitTimer (retryDelay cfg * n)
            /\ retries k = n
            /\ length (fetchLog s') = (length (fetchLog s) + Z.to_nat n)%nat.
Proof.
  intros Hmiss Hfs Hf Hn. cbv zeta.
  change (run cfg s (?a :: ?l)) with (run cfg (step cfg s a) l). cbn [step].
  rewrite run_app.
  rewrite (execute_miss cfg rb rh s s0 Hmiss) by lia.
  set (s1 := {| rs := _ |}).
  set (sig := length (controllers s)). set (c := length (calls s)).
  destruct (failed_attempts_run cfg c sig fs s1 (call0 cfg rb rh (AwaitFetch sig)))
    as (Hk & E1 & E2 & E3 & E4 & E5 & E6 & E7 & E8 & E9);
    try assumption; try reflexivity.
  - subst s1 c. cbn. by rewrite list_lookup_middle.
  - unfold signal_aborted. subst s1 sig. cbn. by rewrite list_lookup_middle.
  - cbn. lia.
  - remember (run cfg s1 (failed_attempts c fs)) as s2 eqn:Heq. clear Heq.
    cbn [run fold_left].
    destruct (attempt_fails_then_waits cfg s2 c _ sig f Hk eq_refl E7 Hf)
      as (Hk3 & _ & _ & _ & _ & _ & _ & _ & F & _); [cbn; lia|].
    eexists. split; [exact Hk3|]. rewrite F, E8.
    split; [reflexivity|]. split; [reflexivity|].
    subst s1. cbn. rewrite length_app. cbn. lia.
Qed.

Lemma X8_linear_backoff_witness :
  exists k,
    calls (run postsConfig (initialState 0)
             [EvExecute None None; EvFetch 0%nat (Resolved status500)])
      !! 0%nat = Some k
    /\ pc k = AwaitTimer 1000.
Proof.
  assert (Hf : transient (BadStatus status500)) by reflexivity.
  assert (Hn : Z.of_nat (length (@nil Failure)) + 1 <= retryCount postsConfig)
    by (by vm_compute).
  destruct (X8_linear_backoff postsConfig (initialState 0) (initialState 0)
              None None [] (BadStatus status500) eq_refl (List.Forall_nil _) Hf Hn)
    as (k & H1 & H2 & _).
  exists k. split; [exact H1 | exact H2].
Defined.

(** ** The retry budget as an invariant *)

Lemma fetchCount_app s s' c extra :
  fetchLog s' = (fetchLog s ++ extra)%list ->
  fetchCount s' c =
    (fetchCount s c + length (filter (fun e => fst e = c) extra))%nat.
Proof.
  intros H. unfold fetchCount. by rewrite H, filter_app, length_app.
Qed.

Lemma count_one_same (c : nat) (fc : FetchConfig) :
  length (filter (fun e : nat * FetchConfig => fst e = c) [(c, fc)]) = 1%nat.
Proof. by rewrite filter_cons_True. Qed.

Lemma count_one_other (c c' : nat) (fc : FetchConfig) :
  c' <> c ->
  length (filter (fun e : nat * FetchConfig => fst e = c') [(c, fc)]) = 0%nat.
Proof. intros H. by rewrite filter_cons_False by (cbn; congruence). Qed.

Lemma within_budget_bound cfg k n :
  within_budget cfg k n -> Z.of_nat n <= Z.max 0 (retryCount cfg + 1).
Proof. unfold within_budget. destruct (pc k); lia. Qed.

(** One call is rewritten and calls [fetch] at most once more. *)
Lemma bounded_update cfg s s' c k k' extra :
  attempts_bounded cfg s ->
  calls s !! c = Some k ->
  calls s' = <[c := k']> (calls s) ->
  fetchLog s' = (fetchLog s ++ extra)%list ->
  (extra = [] \/ exists fc, extra = [(c, fc)]) ->
  within_budget cfg k' (fetchCount s c + length extra) ->
  attempts_bounded cfg s'.
Proof.
  intros Hinv Hk Hcalls Hlog Hextra Hk' c'.
  assert (Hc : (c < length (calls s))%nat) by (eapply lookup_lt_Some; eauto).
  rewrite Hcalls, (fetchCount_app s s' c' extra Hlog).
  destruct (decide (c' = c)) as [->|Hne].
  - rewrite list_lookup_insert_eq by assumption.
    destruct Hextra as [->|[fc ->]]; [exact Hk'|].
    rewrite count_one_same. exact Hk'.
  - rewrite list_lookup_insert_ne by congruence.
    specialize (Hinv c').
    destruct Hextra as [->|[fc ->]].
    + by rewrite filter_nil, Nat.add_0_r.
    + by rewrite count_one_other, Nat.add_0_r.
Qed.

(** A call is appended and calls [fetch] at most once. *)
Lemma bounded_append cfg s s' k' extra :
  attempts_bounded cfg s ->
  calls s' = (calls s ++ [k'])%list ->
  fetchLog s' = (fetchLog s ++ extra)%list ->
  (extra = [] \/ exists fc, extra = [(length (calls s), fc)]) ->
  within_budget cfg k' (length extra) ->
  attempts_bounded cfg s'.
Proof.
  intros Hinv Hcalls Hlog Hextra Hk' c'.
  rewrite Hcalls, (fetchCount_app s s' c' extra Hlog).
  pose proof (Hinv c') as Hc'. pose proof (Hinv (length (calls s))) as Hnew.
  rewrite (lookup_ge_None_2 (calls s) (length (calls s))) in Hnew by lia.
  destruct (lt_eq_lt_dec c' (length (calls s))) as [[Hlt | ->] | Hgt].
  - rewrite lookup_app_l by assumption.
    destruct Hextra as [->|[fc ->]].
    + by rewrite filter_nil, Nat.add_0_r.
    + by rewrite count_one_other, Nat.add_0_r by lia.
  - rewrite list_lookup_middle by reflexivity. rewrite Hnew.
    destruct Hextra as [->|[fc ->]]; [exact Hk'|].
    rewrite count_one_same. exact Hk'.
  - rewrite lookup_ge_None_2 by (rewrite length_app; cbn; lia).
    rewrite (lookup_ge_None_2 (calls s) c') in Hc' by lia. rewrite Hc'.
    destruct Hextra as [->|[fc ->]].
    + by rewrite filter_nil.
    + by rewrite count_one_other by lia.
Qed.

Lemma catchBlock_effect cfg c k err s :
  exists k',
    calls (catchBlock cfg c k err s) = <[c := k']> (calls s)
    /\ fetchLog (catchBlock cfg c k err s) = fetchLog s
    /\ forall n, retries k <= retryCount cfg -> Z.of_nat n <= retries k + 1 ->
                 within_budget cfg k' n.
Proof.
  unfold catchBlock. destruct (String.eqb _ _).
  - eexists. split; [reflexivity|]. split; [reflexivity|].
    intros n H1 H2. unfold within_budget. cbn. lia.
  - destruct (Z.ltb_spec (retryCount cfg) (retries k + 1)).
    + eexists. split; [destruct (onError cfg); reflexivity|].
      split; [destruct (onError cfg); reflexivity|].
      intros n H1 H2. unfold within_budget. cbn. lia.
    + eexists. split; [reflexivity|]. split; [reflexivity|].
      intros n H1 H2. unfold within_budget. cbn. lia.
Qed.

Lemma loopHead_effect cfg c k s :
  exists k' extra,
    calls (loopHead cfg c k s) = <[c := k']> (calls s)
    /\ fetchLog (loopHead cfg c k s) = (fetchLog s ++ extra)%list
    /\ (extra = [] \/ exists fc, extra = [(c, fc)])
    /\ forall n, Z.of_nat n <= retries k ->
                 (retries k <= retryCount cfg \/ n = 0%nat) ->
                 within_budget cfg k' (n + length extra).
Proof.
  unfold loopHead. destruct (Z.leb_spec (retries k) (retryCount cfg)).
  - destruct (abortControllerRef s) as [sig|].
    + eexists _, [_]. split; [reflexivity|]. split; [reflexivity|].
      split; [eauto|]. intros n H1 H2. unfold within_budget. cbn. lia.
    + destruct (catchBlock_effect cfg c k nullSignalError s) as (k' & E1 & E2 & E3).
      exists k', []. rewrite app_nil_r. split; [assumption|]. split; [assumption|].
      split; [auto|]. intros n H1 H2. cbn. rewrite Nat.add_0_r. apply E3; lia.
  - eexists _, []. rewrite app_nil_r. split; [reflexivity|]. split; [reflexivity|].
    split; [auto|]. intros n H1 [H2| ->]; [lia|]. unfold within_budget. cbn. lia.
Qed.

Lemma attempts_bounded_step cfg s ev :
  attempts_bounded cfg s -> attempts_bounded cfg (step cfg s ev).
Proof.
  intros Hinv.
  destruct ev as [rb rh| | |dt|c o|c o|c]; cbn [step].
  - (* execute *)
    pose proof (getCachedData_frame cfg s) as F. cbv zeta in F.
    destruct F as (_ & _ & _ & _ & F5 & F6 & _).
    unfold execute. destruct (getCachedData cfg s) as [[cr|] s1]; cbn [fst snd] in *.
    + eapply (bounded_append cfg s _ _ [] Hinv).
      * cbn. by rewrite F5.
      * cbn. by rewrite F6, app_nil_r.
      * by left.
      * unfold within_budget. cbn. lia.
    + match goal with |- context [loopHead cfg ?c ?k ?t] =>
        destruct (loopHead_effect cfg c k t) as (k' & extra & E1 & E2 & E3 & E4)
      end.
      cbn in E1, E2. rewrite F5 in E1. rewrite F6 in E2. rewrite insert_last in E1.
      apply (bounded_append cfg s _ k' extra Hinv E1 E2 E3).
      apply (E4 0%nat); cbn; [lia | auto].
  - unfold abort. intros c. specialize (Hinv c).
    by destruct (abortControllerRef s).
  - exact Hinv.
  - exact Hinv.
  - unfold afterFetch. destruct (calls s !! c) as [k|] eqn:Hk; [|assumption].
    destruct (pc k) as [sig| | |] eqn:Hpc; try assumption.
    pose proof (Hinv c) as Hc. rewrite Hk in Hc. unfold within_budget in Hc.
    rewrite Hpc in Hc. destruct Hc as [Hr Hn].
    destruct (observeFetch s sig o) as [response|e].
    + destruct (negb (ok response)).
      * destruct (catchBlock_effect cfg c k (httpError (resp_status response))
                    (setStatus (Some (resp_status response)) s))
          as (k' & E1 & E2 & E3).
        apply (bounded_update cfg s _ c k k' [] Hinv Hk E1);
          [by rewrite app_nil_r | by left |].
        cbn [length]. rewrite Nat.add_0_r. by apply E3.
      * apply (bounded_update cfg s _ c k
                 (park k (AwaitJson sig response) (retries k)) [] Hinv Hk);
          [reflexivity | cbn; by rewrite app_nil_r | by left |].
        unfold within_budget. cbn. rewrite Nat.add_0_r. lia.
    + destruct (catchBlock_effect cfg c k e s) as (k' & E1 & E2 & E3).
      apply (bounded_update cfg s _ c k k' [] Hinv Hk E1);
        [by rewrite app_nil_r | by left |].
      cbn [length]. rewrite Nat.add_0_r. by apply E3.
  - unfold afterJson. destruct (calls s !! c) as [k|] eqn:Hk; [|assumption].
    destruct (pc k) as [|sig response| |] eqn:Hpc; try assumption.
    pose proof (Hinv c) as Hc. rewrite Hk in Hc. unfold within_budget in Hc.
    rewrite Hpc in Hc. destruct Hc as [Hr Hn].
    destruct (observeJson s sig o) as [d|e].
    + cbv zeta. unfold setCachedData.
      destruct (onSuccess cfg), (cache cfg); cbn [negb];
        (eapply (bounded_update cfg s _ c k _ [] Hinv Hk);
         [reflexivity | cbn; by rewrite app_nil_r | by left |]);
        unfold within_budget; cbn; rewrite Nat.add_0_r; lia.
    + destruct (catchBlock_effect cfg c k e s) as (k' & E1 & E2 & E3).
      apply (bounded_update cfg s _ c k k' [] Hinv Hk E1);
        [by rewrite app_nil_r | by left |].
      cbn [length]. rewrite Nat.add_0_r. by apply E3.
  - unfold afterTimer. destruct (calls s !! c) as [k|] eqn:Hk; [|assumption].
    destruct (pc k) as [| |delay|] eqn:Hpc; try assumption.
    pose proof (Hinv c) as Hc. rewrite Hk in Hc. unfold within_budget in Hc.
    rewrite Hpc in Hc. destruct Hc as [Hr Hn].
    destruct (loopHead_effect cfg c k s) as (k' & extra & E1 & E2 & E3 & E4).
    apply (bounded_update cfg s _ c k k' extra Hinv Hk E1 E2 E3).
    apply E4; [assumption | by left].
Qed.

(** X9.  The retry budget holds under every schedule: whatever the caller
    and the network do, in whatever order, no call of [execute] calls
    [fetch] more than [retryCount + 1] times (and not at all when
    [retryCount] is negative). *)
Theorem X9_fetches_per_call_bounded
  (cfg : Config) (t0 : Z) (evs : list Event) (c : nat) :
  Z.of_nat (fetchCount (run cfg (initialState t0) evs) c)
  <= Z.max 0 (retryCount cfg + 1).
Proof.
  assert (Hinv : attempts_bounded cfg (run cfg (initialState t0) evs)).
  { unfold run. rewrite <- fold_left_rev_right.
    induction (rev evs) as [|ev l IH]; cbn.
    - intros c'. reflexivity.
    - by apply attempts_bounded_step. }
  specialize (Hinv c).
  destruct (calls (run cfg (initialState t0) evs) !! c) as [k|].
  - by eapply within_budget_bound.
  - rewrite Hinv. lia.
Qed.

(** ** The cache along a run *)






(** ** The outgoing request *)

Lemma obj_get_set k v o name :
  obj_get name (obj_set k v o) =
    if String.eqb name k then Some v else obj_get name o.
Proof.
  induction o as [|[k' v'] o IH]; cbn.
  - reflexivity.
  - destruct (String.eqb_spec k k') as [->|Hne]; cbn.
    + by destruct (String.eqb name k').
    + destruct (String.eqb_spec name k') as [->|Hne'].
      * destruct (String.eqb_spec k' k); congruence.
      * exact IH.
Qed.

Lemma obj_keys_set k v o :
  NoDup (obj_keys o) -> NoDup (obj_keys (obj_set k v o))
  /\ forall x, x ∈ obj_keys (obj_set k v o) <-> x = k \/ x ∈ obj_keys o.
Proof.
  unfold obj_keys. induction o as [|[k' v'] o IH]; cbn.
  - intros _. split; [apply NoDup_singleton|]. intros x.
    rewrite elem_of_cons, elem_of_nil. tauto.
  - intros [Hnot Hnd]%NoDup_cons. destruct (IH Hnd) as [IH1 IH2].
    destruct (String.eqb_spec k k') as [->|Hne]; cbn.
    + split; [by apply NoDup_cons|]. intros x. rewrite !elem_of_cons. tauto.
    + split.
      * apply NoDup_cons. split; [|assumption]. rewrite IH2.
        intros [->|Hin]; [congruence | contradiction].
      * intros x. rewrite !elem_of_cons, IH2. tauto.
Qed.

(** Spreading [extra] over [base]: the keys of [extra] take its values. *)
Lemma obj_get_spread extra :
  forall base name,
    NoDup (obj_keys extra) ->
    obj_get name (obj_spread base extra) =
      match obj_get name extra with
      | Some v => Some v
      | None => obj_get name base
      end.
Proof.
  unfold obj_spread, obj_keys.
  induction extra as [|[k v] extra IH]; intros base name Hnd; cbn.
  - reflexivity.
  - apply NoDup_cons in Hnd as [Hnot Hnd].
    rewrite IH by assumption. rewrite obj_get_set.
    destruct (String.eqb_spec name k) as [->|Hne]; [|reflexivity].
    destruct (obj_get k extra) as [v'|] eqn:E; [|reflexivity].
    exfalso. apply Hnot. clear -E.
    induction extra as [|[k' w] extra IH]; cbn in *; [discriminate|].
    destruct (String.eqb_spec k k') as [->|Hne];
      rewrite elem_of_cons; auto.
Qed.

Lemma obj_keys_spread extra :
  forall base, NoDup (obj_keys base) -> NoDup (obj_keys (obj_spread base extra)).
Proof.
  unfold obj_spread.
  induction extra as [|[k v] extra IH]; intros base Hnd; cbn; [assumption|].
  apply IH. by apply obj_keys_set.
Qed.

(** X11.  The headers of the outgoing request, read as an object.  Every
    header the caller passed is sent with the caller's value and
    [Content-Type] defaults to [application/json], except that a [GET]
    without [skipCacheHeaders] forces [Cache-Control: max-age=300] and
    [Pragma: cache] over whatever the caller passed; no header name is
    sent twice; and a [GET] never carries a body. *)
Theorem X11_outgoing_headers
  (cfg : Config) (k : Call) (sig : nat) (name : string) :
  NoDup (obj_keys (requestHeaders k)) ->
  let fc := fetchConfig cfg k sig in
  let forced := String.eqb (method cfg) "GET" && negb (skipCacheHeaders cfg) in
  obj_get name (fc_headers fc) =
    (if forced && String.eqb name "Pragma" then Some "cache"
     else if forced && String.eqb name "Cache-Control" then Some "max-age=300"
     else match obj_get name (requestHeaders k) with
          | Some v => Some v
          | None => if String.eqb name "Content-Type"
                    then Some "application/json" else None
          end)
  /\ NoDup (obj_keys (fc_headers fc))
  /\ (method cfg = "GET" -> fc_body fc = None).
Proof.
  intros Hnd. cbv zeta. unfold fetchConfig. cbn [fc_headers fc_body].
  assert (Hbase : NoDup (obj_keys
            (obj_spread [("Content-Type", "application/json")] (requestHeaders k))))
    by (apply obj_keys_spread, NoDup_singleton).
  split; [|split].
  - destruct (String.eqb (method cfg) "GET" && negb (skipCacheHeaders cfg)); cbn [andb].
    + rewrite !obj_get_set.
      destruct (String.eqb name "Pragma"); [reflexivity|].
      destruct (String.eqb name "Cache-Control"); [reflexivity|].
      rewrite obj_get_spread by assumption. reflexivity.
    + rewrite obj_get_spread by assumption. reflexivity.
  - destruct (String.eqb (method cfg) "GET" && negb (skipCacheHeaders cfg)).
    + by do 2 apply obj_keys_set.
    + assumption.
  - intros ->. cbn. by rewrite andb_false_r.
Qed.

Lemma X11_outgoing_headers_witness :
  let k := call0 (withHeaders authThenCustom) None
             (Some [("Cache-Control", "no-cache"); ("Accept", "text/html")])
             (AwaitFetch 0%nat) in
  obj_get "Cache-Control" (fc_headers (fetchConfig (withHeaders authThenCustom) k 0%nat))
  = Some "max-age=300".
Proof.
  cbv zeta.
  assert (Hnd : NoDup (obj_keys [("Cache-Control", "no-cache"); ("Accept", "text/html")]))
    by (unfold obj_keys; cbn; apply NoDup_cons; split;
        [rewrite elem_of_cons, elem_of_nil; intros [?|[]]; discriminate | apply NoDup_singleton]).
  exact (proj1 (X11_outgoing_headers (withHeaders authThenCustom)
                  (call0 (withHeaders authThenCustom) None
                     (Some [("Cache-Control", "no-cache"); ("Accept", "text/html")])
                     (AwaitFetch 0%nat)) 0%nat "Cache-Control" Hnd)).
Defined.

(** ** What failures leave alone *)

Lemma data_loopHead cfg c k s :
  data (rs (loopHead cfg c k s)) = data (rs s).
Proof.
  unfold loopHead. destruct (_ <=? _); [|reflexivity].
  destruct (abortControllerRef s); [reflexivity|].
  by destruct (rs_catchBlock cfg c k nullSignalError s) as (-> & _).
Qed.

Lemma payload_frame_step cfg s ev :
  leaves_payload ev = true ->
  data (rs (step cfg s ev)) = data (rs s)
  /\ cacheRef (step cfg s ev) = cacheRef s.
Proof.
  destruct ev as [rb rh| | |dt|c o|c [d|e]|c]; cbn [leaves_payload step];
    try discriminate; intros _.
  - unfold abort. by destruct (abortControllerRef s).
  - done.
  - pose proof (afterFetch_frame cfg c o s) as F. cbv zeta in F.
    destruct F as (-> & _). split; [|reflexivity].
    unfold afterFetch. destruct (calls s !! c) as [k|]; [|reflexivity].
    destruct (pc k); try reflexivity.
    destruct (observeFetch s sig o) as [response|e].
    + destruct (negb (ok response)); [|reflexivity].
      by destruct (rs_catchBlock cfg c k (httpError (resp_status response))
                     (setStatus (Some (resp_status response)) s)) as (-> & _).
    + by destruct (rs_catchBlock cfg c k e s) as (-> & _).
  - unfold afterJson. destruct (calls s !! c) as [k|]; [|done].
    destruct (pc k); try done. unfold observeJson.
    destruct (signal_aborted s sig).
    + pose proof (catchBlock_frame cfg c k abortError s) as F. cbv zeta in F.
      destruct F as (-> & _).
      by destruct (rs_catchBlock cfg c k abortError s) as (-> & _).
    + pose proof (catchBlock_frame cfg c k e s) as F. cbv zeta in F.
      destruct F as (-> & _).
      by destruct (rs_catchBlock cfg c k e s) as (-> & _).
  - unfold afterTimer. destruct (calls s !! c) as [k|]; [|done].
    destruct (pc k); try done.
    pose proof (loopHead_frame cfg c k s) as F. cbv zeta in F.
    destruct F as (-> & _). by rewrite data_loopHead.
Qed.

(** X12.  Requests that fail, are cancelled or are still pending never
    disturb the payload on display or the cache: along any run made only
    of settled [fetch]es, failed body reads, timers, [abort]s and clock
    ticks, [data] and the cache stay exactly as they were. *)
Theorem X12_failures_leave_data_and_cache
  (cfg : Config) (s : State) (evs : list Event) :
  forallb leaves_payload evs = true ->
  data (rs (run cfg s evs)) = data (rs s)
  /\ cacheRef (run cfg s evs) = cacheRef s.
Proof.
  revert s. induction evs as [|ev evs IH]; intros s H; [done|].
  cbn in H. apply andb_true_iff in H as [Hev Hevs].
  change (run cfg s (ev :: evs)) with (run cfg (step cfg s ev) evs).
  destruct (IH (step cfg s ev) Hevs) as [-> ->].
  by apply payload_frame_step.
Qed.

Lemma X12_failures_leave_data_and_cache_witness :
  let s := run postsConfig (postsAwaitingJson plain200)
             [EvJson 0%nat (Parsed postsPayload); EvTick 300000;
              EvExecute None None] in
  data (rs (run postsConfig s
              [EvFetch 1%nat (Resolved status500); EvTimer 1%nat;
               EvFetch 1%nat (Rejected failedToFetch)])) = data (rs s).
Proof.
  exact (proj1 (X12_failures_leave_data_and_cache postsConfig _
                  [EvFetch 1%nat (Resolved status500); EvTimer 1%nat;
                   EvFetch 1%nat (Rejected failedToFetch)] eq_refl)).
Defined.

(** ** Where [error] is written *)

Lemma error_catchBlock cfg c k err s :
  (c < length (calls s))%nat ->
  error (rs (catchBlock cfg c k err s)) = error (rs s)
  \/ (completion (catchBlock cfg c k err s) c = Some (Threw err)
      /\ error (rs (catchBlock cfg c k err s)) = Some (err_message err)).
Proof.
  intros Hc. unfold catchBlock. destruct (String.eqb _ _); [by left|].
  destruct (_ <? _); [|by left]. right.
  rewrite completion_set_call by (destruct (onError cfg); exact Hc).
  by destruct (onError cfg).
Qed.

(** X13.  [error] is written in two places only.  A step changes it
    either because [execute] missed the cache, which resets it to
    [null], or because the call the event resumes has just given up and
    thrown, in which case [error] is the message of the error thrown.
    In particular a later success never clears an earlier error. *)
Theorem X13_error_writes (cfg : Config) (s : State) (ev : Event) :
  let s' := step cfg s ev in
  error (rs s') = error (rs s)
  \/ (exists rb rh, ev = EvExecute rb rh
                    /\ fst (getCachedData cfg s) = None
                    /\ error (rs s') = None)
  \/ (exists c e, event_call ev = Some c
                  /\ completion s c = None
                  /\ completion s' c = Some (Threw e)
                  /\ error (rs s') = Some (err_message e)).
Proof.
  cbv zeta.
  destruct ev as [rb rh| | |dt|c o|c o|c]; cbn [step].
  - destruct (getCachedData cfg s) as [[cr|] s1] eqn:Hg.
    + left. pose proof (getCachedData_frame cfg s) as F. cbv zeta in F.
      rewrite Hg in F. cbn in F. destruct F as (F & _).
      rewrite (execute_hit cfg rb rh s cr s1 Hg). cbn. by rewrite F.
    + right. left. exists rb, rh. split; [reflexivity|]. split; [reflexivity|].
      unfold execute. rewrite Hg. unfold loopHead. cbn.
      destruct (_ <=? _); reflexivity.
  - left. unfold abort. by destruct (abortControllerRef s).
  - by left.
  - by left.
  - unfold afterFetch. destruct (calls s !! c) as [k|] eqn:Hk; [|by left].
    assert (Hc : (c < length (calls s))%nat) by (eapply lookup_lt_Some; eauto).
    destruct (pc k) as [sig| | |] eqn:Hpc; try by left.
    assert (Hnone : completion s c = None)
      by (unfold completion; by rewrite Hk, Hpc).
    destruct (observeFetch s sig o) as [response|e].
    + destruct (negb (ok response)); [|by left].
      destruct (error_catchBlock cfg c k (httpError (resp_status response))
                  (setStatus (Some (resp_status response)) s) Hc) as [->|[H1 H2]];
        [by left|].
      right. right. by exists c, (httpError (resp_status response)).
    + destruct (error_catchBlock cfg c k e s Hc) as [->|[H1 H2]]; [by left|].
      right. right. by exists c, e.
  - unfold afterJson. destruct (calls s !! c) as [k|] eqn:Hk; [|by left].
    assert (Hc : (c < length (calls s))%nat) by (eapply lookup_lt_Some; eauto).
    destruct (pc k) as [|sig response| |] eqn:Hpc; try by left.
    assert (Hnone : completion s c = None)
      by (unfold completion; by rewrite Hk, Hpc).
    destruct (observeJson s sig o) as [d|e].
    + left. cbn. destruct (onSuccess cfg); cbn; unfold setCachedData;
        destruct (cache cfg); reflexivity.
    + destruct (error_catchBlock cfg c k e s Hc) as [->|[H1 H2]]; [by left|].
      right. right. by exists c, e.
  - unfold afterTimer. destruct (calls s !! c) as [k|] eqn:Hk; [|by left].
    assert (Hc : (c < length (calls s))%nat) by (eapply lookup_lt_Some; eauto).
    destruct (pc k) as [| |delay|] eqn:Hpc; try by left.
    assert (Hnone : completion s c = None)
      by (unfold completion; by rewrite Hk, Hpc).
    unfold loopHead. destruct (_ <=? _); [|by left].
    destruct (abortControllerRef s); [by left|].
    destruct (error_catchBlock cfg c k nullSignalError s Hc) as [->|[H1 H2]];
      [by left|].
    right. right. by exists c, nullSignalError.
Qed.

(** ** Mounting and unmounting *)

(** The effect run [S n] times on a fresh hook: every run has started a
    call, each on its own controller, and every controller but the last
    has been aborted by the cleanup that preceded the next run. *)
Lemma mounted_shape cfg t0 n :
  0 <= retryCount cfg -> immediate cfg = true ->
  let s := mounted cfg t0 n in
  rs s = {| data := JNull; loading := true; error := None; status := None |}
  /\ abortControllerRef s = Some n
  /\ controllers s = (replicate n true ++ [false])%list
  /\ cacheRef s = ∅
  /\ calls s = effectCalls cfg (S n)
  /\ length (fetchLog s) = S n
  /\ callbackLog s = [].
Proof.
  intros Hn Him. cbv zeta.
  assert (Hmiss : forall s, cacheRef s = ∅ -> getCachedData cfg s = (None, s)).
  { intros s Hs. unfold getCachedData. destruct (negb (cache cfg)); [reflexivity|].
    cbn. by rewrite Hs, lookup_empty. }
  induction n as [|n IH].
  - unfold mounted, mount. cbn [Nat.iter]. rewrite Him.
    rewrite (execute_miss cfg None None (initialState t0) _ (Hmiss (initialState t0) eq_refl) Hn).
    cbn. done.
  - unfold mounted in *. rewrite Nat.iter_succ.
    set (s := Nat.iter n (effectRerun cfg) (mount cfg t0)) in *.
    destruct IH as (Hrs & Href & Hctl & Hcache & Hcalls & Hlog & Hcb).
    unfold effectRerun, effectBody, effectCleanup. rewrite Him.
    assert (Hab : abort s =
              {| rs := rs s; abortControllerRef := Some n;
                 controllers := replicate (S n) true; cacheRef := cacheRef s;
                 now := now s; calls := calls s; fetchLog := fetchLog s;
                 callbackLog := callbackLog s |}).
    { unfold abort. rewrite Href, Hctl. f_equal.
      rewrite <- (length_replicate n true) at 1. rewrite insert_last.
      by rewrite replicate_S_end. }
    rewrite (execute_miss cfg None None (abort s) _ (Hmiss (abort s) ltac:(by rewrite Hab)) Hn).
    rewrite Hab. cbn [rs abortControllerRef controllers cacheRef now calls fetchLog
                      callbackLog data status].
    rewrite Hrs, Hcache, Hcalls, Hcb, length_replicate, length_app, Hlog. cbn [data status length].
    repeat split; try done.
    + unfold effectCalls. rewrite (seq_S (S n)), map_app. reflexivity.
    + lia.
Qed.

(** X14.  The requests of the mount effect do not outlive the
    component.  However many times React has run the effect before a
    response arrives (once with stable options; twice after the first
    re-render with the default [headers] or an inline callback), each
    run has started one call and one [fetch] on a controller of its own,
    and every controller but the last has been aborted by the cleanup
    that preceded the next run.  When the component then unmounts,
    whatever the network delivers to any of these calls afterwards, the
    call resolves as aborted: RequestState is not written, no callback
    runs, nothing is cached and nothing is retried.  With [immediate]
    off the effect has done nothing. *)
Theorem X14_unmount_cancels_effect_requests
  (cfg : Config) (t0 : Z) (n c : nat) (o : FetchOutcome) :
  0 <= retryCount cfg ->
  let s := mounted cfg t0 n in
  (immediate cfg = true ->
   length (calls s) = S n
   /\ length (fetchLog s) = S n
   /\ controllers s = (replicate n true ++ [false])%list
   /\ ((c <= n)%nat ->
       let s' := step cfg (unmount s) (EvFetch c o) in
       in_flight s c = true
       /\ completion s' c = Some (Returned Aborted)
       /\ rs s' = rs s
       /\ callbackLog s' = []
       /\ cacheRef s' = ∅
       /\ fetchLog s' = fetchLog s))
  /\ (immediate cfg = false -> s = initialState t0).
Proof.
  intros Hn. cbv zeta. split.
  - intros Him.
    destruct (mounted_shape cfg t0 n Hn Him)
      as (Hrs & Href & Hctl & Hcache & Hcalls & Hlog & Hcb).
    set (s := mounted cfg t0 n) in *.
    assert (Hlen : length (calls s) = S n)
      by (rewrite Hcalls; unfold effectCalls; by rewrite length_map, length_seq).
    split; [exact Hlen|]. split; [exact Hlog|]. split; [exact Hctl|].
    intros Hc.
    assert (Hk : calls s !! c = Some (call0 cfg None None (AwaitFetch c))).
    { rewrite Hcalls. unfold effectCalls. rewrite list_lookup_fmap.
      rewrite lookup_seq_lt by lia. reflexivity. }
    assert (Hsig : signal_aborted (unmount s) c = true).
    { unfold signal_aborted, unmount, abort. rewrite Href, Hctl. cbn.
      rewrite <- (length_replicate n true) at 1. rewrite insert_last.
      rewrite <- replicate_S_end. by rewrite lookup_replicate_2 by lia. }
    assert (Hfr : rs (unmount s) = rs s /\ calls (unmount s) = calls s
                  /\ callbackLog (unmount s) = callbackLog s
                  /\ cacheRef (unmount s) = cacheRef s
                  /\ fetchLog (unmount s) = fetchLog s).
    { unfold unmount, abort. rewrite Href. cbn. done. }
    destruct Hfr as (F1 & F2 & F3 & F4 & F5).
    split.
    { unfold in_flight. by rewrite Hk. }
    cbn [step]. unfold afterFetch, observeFetch. rewrite F2, Hk. cbn [pc call0].
    rewrite Hsig. rewrite catchBlock_abort by reflexivity.
    rewrite completion_set_call by (rewrite F2; lia).
    cbn. rewrite F1, F3, F4, F5, Hcb, Hcache. done.
  - intros Him. unfold mounted. induction n as [|n IH].
    + cbn. unfold mount. by rewrite Him.
    + rewrite Nat.iter_succ, IH.
      unfold effectRerun, effectBody, effectCleanup. by rewrite Him.
Qed.

(** The list of posts of [pages/Home.js], whose inline [onError] gives
    [execute] a new identity at every render: the effect has run twice. *)
Lemma X14_unmount_cancels_effect_requests_witness :
  let s := mounted homePostsConfig 0 1 in
  length (fetchLog s) = 2%nat
  /\ controllers s = [true; false]
  /\ completion (step homePostsConfig (unmount s) (EvFetch 1%nat (Resolved plain200)))
       1%nat = Some (Returned Aborted).
Proof.
  assert (Hn : 0 <= retryCount homePostsConfig) by (by vm_compute).
  destruct (X14_unmount_cancels_effect_requests homePostsConfig 0 1 1
              (Resolved plain200) Hn) as (H & _).
  destruct (H eq_refl) as (_ & H2 & H3 & H4).
  destruct (H4 (le_n 1)) as (_ & H5 & _).
  split; [exact H2|]. split; [exact H3|]. exact H5.
Defined.
